(** * powerful-benchmarker: checkpoint store, configuration persistence and
      the augmentation trainer-kwargs assembler

    Shallow embedding of [utils/common_functions.py] and
    [api_parsers/api_unsupervised_embeddings_using_augmentations.py].

    Conventions of the embedding.
    - Python [str] is [string]; a path is the string the code passes around
      (no normalisation, no symbolic links).
    - A Python [dict] with string keys is an insertion-ordered association
      list ([dict_set] updates in place or appends, as [d[k] = v] does).
    - Code that touches the file system runs in a state-and-exception monad
      over a finite map from paths to nodes; the state reached so far is kept
      when an exception propagates.
    - Calls into the tensor runtime ([torch.save], [load_state_dict], ...)
      are answered by an arbitrary handler over an arbitrary world; every
      call and its answer is appended to a trace. *)

From Stdlib Require Import ZArith Lia Bool List Ascii String DecimalString.
From Stdlib Require DecimalPos DecimalZ.
From Stdlib Require Import Sorting.Sorted.
From stdpp Require Import base option list gmap strings.

Local Open Scope string_scope.
Local Open Scope Z_scope.
Local Open Scope list_scope.

(* ===================================================================== *)
(** ** Python strings *)
(* ===================================================================== *)

(** [s.startswith(p)] *)
Fixpoint startswith (s p : string) : bool :=
  match p, s with
  | EmptyString, _ => true
  | String c p', String d s' => Ascii.eqb c d && startswith s' p'
  | String _ _, EmptyString => false
  end.

(** [s[n:]] *)
Fixpoint drop_str (n : nat) (s : string) : string :=
  match n, s with
  | O, _ => s
  | S n', String _ s' => drop_str n' s'
  | S _, EmptyString => EmptyString
  end.

(** [s.endswith(p)] *)
Definition endswith (s p : string) : bool :=
  (String.length p <=? String.length s)%nat
  && String.eqb (drop_str (String.length s - String.length p) s) p.

(** [c in s] for a single character [c] *)
Fixpoint has_char (c : ascii) (s : string) : bool :=
  match s with
  | EmptyString => false
  | String d s' => Ascii.eqb c d || has_char c s'
  end.

(** [p in s] for a substring [p] *)
Fixpoint contains (s p : string) : bool :=
  startswith s p
  || match s with
     | EmptyString => false
     | String _ s' => contains s' p
     end.

(** [s.split(c)] for a one-character separator: never the empty list. *)
Fixpoint split (c : ascii) (s : string) : list string :=
  match s with
  | EmptyString => [EmptyString]
  | String d s' =>
      if Ascii.eqb d c then EmptyString :: split c s'
      else match split c s' with
           | seg :: rest => String d seg :: rest
           | [] => [String d EmptyString]
           end
  end.

(** [l[-1]] and [l[-2]]; [None] is Python's IndexError. *)
Definition nth_last {A} (l : list A) : option A := last l.

Fixpoint nth_last2 {A} (l : list A) : option A :=
  match l with
  | [] => None
  | [_] => None
  | [x; _] => Some x
  | _ :: l' => nth_last2 l'
  end.

(** [s.rfind(c)]: the index of the last occurrence, [-1] when absent. *)
Fixpoint rfind_from (c : ascii) (s : string) (i : Z) (acc : Z) : Z :=
  match s with
  | EmptyString => acc
  | String d s' => rfind_from c s' (i + 1) (if Ascii.eqb d c then i else acc)
  end.

Definition rfind (c : ascii) (s : string) : Z := rfind_from c s 0 (-1).

(** [s[:n]] *)
Fixpoint take_str (n : nat) (s : string) : string :=
  match n, s with
  | O, _ => EmptyString
  | S n', String c s' => String c (take_str n' s')
  | S _, EmptyString => EmptyString
  end.

(** [s[i:i+1] != "."] *)
Definition not_dot_at (s : string) (i : nat) : bool :=
  match String.get i s with
  | Some c => negb (Ascii.eqb c ".")
  | None => true
  end.

(** The [while] loop of [genericpath._splitext]: is there a character other
    than the extension separator in [p[filenameIndex:dotIndex]]? *)
Fixpoint splitext_scan (p : string) (filenameIndex : nat) (steps : nat) : bool :=
  match steps with
  | O => false
  | S steps' =>
      if not_dot_at p filenameIndex then true
      else splitext_scan p (S filenameIndex) steps'
  end.

(** [os.path.splitext(p)] (posixpath): root and extension. *)
Definition splitext (p : string) : string * string :=
  let sepIndex := rfind "/" p in
  let dotIndex := rfind "." p in
  if (sepIndex <? dotIndex)
     && splitext_scan p (Z.to_nat (sepIndex + 1)) (Z.to_nat (dotIndex - (sepIndex + 1)))
  then (take_str (Z.to_nat dotIndex) p, drop_str (Z.to_nat dotIndex) p)
  else (p, EmptyString).

(** [os.path.join(a, b)] (posixpath) *)
Definition path_join (a b : string) : string :=
  if startswith b "/" then b
  else if String.eqb a "" || endswith a "/" then a +:+ b
  else a +:+ "/" +:+ b.

(** [s.replace(old, "")] for a non-empty [old]: occurrences are removed left
    to right, without overlap.  [skip] counts the characters of the current
    occurrence still to drop. *)
Fixpoint remove_all_from (old : string) (skip : nat) (s : string) : string :=
  match s with
  | EmptyString => EmptyString
  | String c s' =>
      match skip with
      | S k => remove_all_from old k s'
      | O =>
          if startswith s old then remove_all_from old (String.length old - 1) s'
          else String c (remove_all_from old O s')
      end
  end.

Definition remove_all (s old : string) : string := remove_all_from old O s.

(** [str(z)] for an [int] *)
Definition str_of_int (z : Z) : string := NilEmpty.string_of_int (Z.to_int z).

(** Characters that [str.strip()] and [int()] treat as white space (ASCII). *)
Definition is_space (c : ascii) : bool :=
  let n := nat_of_ascii c in
  ((9 <=? n) && (n <=? 13) || (n =? 32) || ((28 <=? n) && (n <=? 31)))%nat.

Fixpoint lstrip (s : string) : string :=
  match s with
  | String c s' => if is_space c then lstrip s' else s
  | EmptyString => EmptyString
  end.

(** Value of an ASCII decimal digit. *)
Definition digit_of (c : ascii) : option Z :=
  let n := nat_of_ascii c in
  if ((48 <=? n) && (n <=? 57))%nat then Some (Z.of_nat n - 48) else None.

(** Digits, then optional trailing white space, to the end of the string.
    [seen] tells whether a digit was read. *)
Fixpoint int_digits (s : string) (acc : Z) (seen : bool) : option Z :=
  match s with
  | EmptyString => if seen then Some acc else None
  | String c s' =>
      match digit_of c with
      | Some d => int_digits s' (10 * acc + d) true
      | None =>
          if seen && is_space c && String.eqb (lstrip s') "" then Some acc
          else None
      end
  end.

(** [int(s)] in base 10 on a string without underscores and without
    non-ASCII digits (every call site passes a piece of a [split("_")]):
    optional white space, optional sign, at least one digit.  [None] is
    Python's ValueError. *)
Definition py_int (s : string) : option Z :=
  match lstrip s with
  | String c s' =>
      if Ascii.eqb c "-" then Z.opp <$> int_digits s' 0 false
      else if Ascii.eqb c "+" then int_digits s' 0 false
      else int_digits (String c s') 0 false
  | EmptyString => None
  end.

(** [sorted(l)] on strings (code-point order), by insertion. *)
Fixpoint insert_sorted (x : string) (l : list string) : list string :=
  match l with
  | [] => [x]
  | y :: l' => if String.leb x y then x :: l else y :: insert_sorted x l'
  end.

Definition sorted (l : list string) : list string :=
  foldr insert_sorted [] l.

(** Shell-style matching as [glob.glob] does it inside one directory level:
    [*] matches any run of characters other than the separator, every other
    character stands for itself. *)
Fixpoint glob_match (pat s : string) : bool :=
  match pat with
  | EmptyString => String.eqb s ""
  | String c pat' =>
      if Ascii.eqb c "*" then
        (fix star (t : string) : bool :=
           glob_match pat' t
           || match t with
              | String d t' => negb (Ascii.eqb d "/") && star t'
              | EmptyString => false
              end) s
      else
        match s with
        | String d s' => Ascii.eqb c d && glob_match pat' s'
        | EmptyString => false
        end
  end.


(* ===================================================================== *)
(** ** Python dictionaries and YAML values *)
(* ===================================================================== *)

(** Insertion-ordered dictionary with string keys. *)
Abbreviation dict V := (list (string * V)).

(** [d.get(k)]; [None] when [k not in d]. *)
Fixpoint dict_get {V} (k : string) (d : dict V) : option V :=
  match d with
  | [] => None
  | (k', v) :: d' => if String.eqb k k' then Some v else dict_get k d'
  end.

(** [k in d] *)
Definition dict_mem {V} (k : string) (d : dict V) : bool :=
  match dict_get k d with Some _ => true | None => false end.

(** [d[k] = v]: an existing key keeps its position, a new key goes last. *)
Fixpoint dict_set {V} (k : string) (v : V) (d : dict V) : dict V :=
  match d with
  | [] => [(k, v)]
  | (k', v') :: d' =>
      if String.eqb k k' then (k, v) :: d' else (k', v') :: dict_set k v d'
  end.

(** [{k: v for (k, v) in items}] and [OrderedDict] filled in a loop. *)
Definition dict_of_items {V} (items : list (string * V)) : dict V :=
  fold_left (fun d kv => dict_set (fst kv) (snd kv) d) items [].

(** [d.keys()] *)
Definition dict_keys {V} (d : dict V) : list string := map fst d.

(** A value of a configuration document, as [yaml.safe_load] builds it.
    A finite float is the rational it denotes; mappings have string keys. *)
#[warnings="-register-all"]
Inductive yaml : Type :=
  | YNone
  | YBool (b : bool)
  | YInt (z : Z)
  | YFloat (num : Z) (den : positive)
  | YStr (s : string)
  | YList (l : list yaml)
  | YDict (d : list (string * yaml)).

(** The number a numeric value stands for, as a fraction: Python's [==]
    compares [bool], [int] and [float] by value. *)
Definition yaml_number (v : yaml) : option (Z * positive) :=
  match v with
  | YBool b => Some (Z.b2z b, 1%positive)
  | YInt z => Some (z, 1%positive)
  | YFloat n d => Some (n, d)
  | _ => None
  end.

Definition frac_eqb (a b : Z * positive) : bool :=
  (fst a * Z.pos (snd b) =? fst b * Z.pos (snd a)).

(** Python's [a == b] on document values: numbers by value, sequences
    element-wise, mappings by key (order does not matter). *)
Fixpoint py_eq (a b : yaml) {struct a} : bool :=
  match a, b with
  | YNone, YNone => true
  | YStr s, YStr t => String.eqb s t
  | YList l1, YList l2 =>
      (fix go (l1 l2 : list yaml) : bool :=
         match l1, l2 with
         | [], [] => true
         | x :: l1', y :: l2' => py_eq x y && go l1' l2'
         | _, _ => false
         end) l1 l2
  | YDict d1, YDict d2 =>
      (length d1 =? length d2)%nat
      && (fix go (d1 : list (string * yaml)) : bool :=
            match d1 with
            | [] => true
            | (k, v) :: d1' =>
                match dict_get k d2 with
                | Some w => py_eq v w
                | None => false
                end && go d1'
            end) d1
  | _, _ =>
      match yaml_number a, yaml_number b with
      | Some x, Some y => frac_eqb x y
      | _, _ => false
      end
  end.

(** [a != b] *)
Definition py_ne (a b : yaml) : bool := negb (py_eq a b).

(** A configuration document: a mapping from keys to values. *)
Abbreviation document := (list (string * yaml)).


(* ===================================================================== *)
(** ** Exceptions, state and the file system *)
(* ===================================================================== *)

Inductive errno : Type := EEXIST | ENOENT | EISDIR.

Inductive exn : Type :=
  | IndexError
  | ValueError
  | TypeError
  | AttributeError
  | YAMLError
  | OSError (e : errno)
  | OtherError (name : string).

(** The outcome of a computation: a value, or a propagating exception. *)
Inductive result (A : Type) : Type :=
  | Ok (a : A)
  | Raise (e : exn).
Arguments Ok {A} a.
Arguments Raise {A} e.

#[global] Instance result_ret : MRet result := @Ok.
#[global] Instance result_bind : MBind result := fun A B f m =>
  match m with
  | Ok a => f a
  | Raise e => Raise e
  end.

(** [[f(x) for x in l]]: the first exception stops the comprehension. *)
Fixpoint map_result {A B} (f : A -> result B) (l : list A) : result (list B) :=
  match l with
  | [] => Ok []
  | x :: l' => y ← f x; ys ← map_result f l'; mret (y :: ys)
  end.

(** State-and-exception computations: the state reached is kept when an
    exception propagates. *)
Definition st (S A : Type) : Type := S -> S * result A.

#[global] Instance st_ret {S} : MRet (st S) := fun A a s => (s, Ok a).
#[global] Instance st_bind {S} : MBind (st S) := fun A B f m s =>
  match m s with
  | (s', Ok a) => f a s'
  | (s', Raise e) => (s', Raise e)
  end.

Definition raise {S A} (e : exn) : st S A := fun s => (s, Raise e).

(** A computation that only reads the state. *)
Definition reading {S A} (f : S -> result A) : st S A := fun s => (s, f s).

(** [try: body  except <handles>: handler(e)]; other exceptions propagate. *)
Definition try_except {S A} (body : st S A) (handles : exn -> bool)
    (handler : exn -> st S A) : st S A := fun s =>
  match body s with
  | (s', Ok a) => (s', Ok a)
  | (s', Raise e) => if handles e then handler e s' else (s', Raise e)
  end.

(** [for x in l: body(x)] *)
Fixpoint for_each {S A} (l : list A) (body : A -> st S unit) : st S unit :=
  match l with
  | [] => mret tt
  | x :: l' => _ ← body x; for_each l' body
  end.

(** A file holds the documents dumped into it, in the order written: one
    after [open(.., 'w')], one more for each [open(.., 'a')]. *)
Inductive node : Type :=
  | Dir
  | File (chunks : list document).

(** The file system: which paths exist, and what they are. *)
Abbreviation fs := (gmap string node).

(** [os.makedirs(p)]: the path must be new. *)
Definition os_makedirs (p : string) : st fs unit := fun s =>
  if String.eqb p "" then (s, Raise (OSError ENOENT))
  else match s !! p with
       | Some _ => (s, Raise (OSError EEXIST))
       | None => (<[p := Dir]> s, Ok tt)
       end.

(** [os.path.isfile(p)] *)
Definition os_path_isfile (s : fs) (p : string) : bool :=
  match s !! p with
  | Some (File _) => true
  | _ => false
  end.

(** [glob.glob(pattern)]: the existing paths the pattern matches, in the
    order the directory scan gives them. *)
Definition glob (s : fs) (pattern : string) : list string :=
  filter (fun p => glob_match pattern p = true) (map fst (map_to_list s)).

(** [open(fname, 'r')] and reading it whole. *)
Definition read_file (s : fs) (fname : string) : result (list document) :=
  match s !! fname with
  | Some (File chunks) => Ok chunks
  | Some Dir => Raise (OSError EISDIR)
  | None => Raise (OSError ENOENT)
  end.

(** [yaml.safe_load] of the text of a file: an empty file gives [None], one
    dumped document gives it back, several dumped block-style mappings read
    as one mapping in which a later key wins; an empty mapping is dumped in
    flow style and does not parse next to another document. *)
Definition yaml_safe_load (chunks : list document) : result (option document) :=
  match chunks with
  | [] => Ok None
  | [d] => Ok (Some d)
  | _ =>
      if forallb (fun d => negb (Nat.eqb (length d) 0)) chunks
      then Ok (Some (dict_of_items (concat chunks)))
      else Raise YAMLError
  end.

Definition load_yaml (s : fs) (fname : string) : result (option document) :=
  chunks ← read_file s fname; yaml_safe_load chunks.

(** The modes the code opens files with: ['w'] and ['a']. *)
Inductive open_mode : Type := mode_w | mode_a.

(** [open(fname, open_as)] truncates or extends the file, creating it when
    absent, and [yaml.dump] writes the document.  Parent directories are
    not tracked: opening fails only on a path that is a directory. *)
Definition write_yaml (fname : string) (input_dict : document)
    (open_as : open_mode) : st fs unit := fun s =>
  match s !! fname, open_as with
  | Some Dir, _ => (s, Raise (OSError EISDIR))
  | Some (File chunks), mode_a => (<[fname := File (chunks ++ [input_dict])]> s, Ok tt)
  | _, _ => (<[fname := File [input_dict]]> s, Ok tt)
  end.

Definition is_eexist (e : exn) : bool :=
  match e with OSError EEXIST => true | _ => false end.

Definition is_oserror (e : exn) : bool :=
  match e with OSError _ => true | _ => false end.

Definition makedir_if_not_there (dir_name : string) : st fs unit :=
  try_except (os_makedirs dir_name) is_oserror
    (fun e => if negb (is_eexist e) then raise e else mret tt).

(* ===================================================================== *)
(** ** Checkpoint versions and the sub-experiment epoch map *)
(* ===================================================================== *)

(** [l[0]]; [None] is Python's IndexError. *)
Definition nth_first {A} (l : list A) : option A := head l.

Definition index_or_raise {A} (o : option A) : result A :=
  match o with
  | Some a => Ok a
  | None => Raise IndexError
  end.

(** [int(s)] *)
Definition int_or_raise (s : string) : result Z :=
  match py_int s with
  | Some z => Ok z
  | None => Raise ValueError
  end.

(** [max(l)]: the empty sequence is a ValueError. *)
Definition py_max (l : list Z) : result Z :=
  match l with
  | [] => Raise ValueError
  | z :: l' => Ok (fold_left Z.max l' z)
  end.

(** [int(x.split("_")[-1].split(".")[0])] *)
Definition version_of (x : string) : result Z :=
  t ← index_or_raise (nth_last (split "_" x));
  h ← index_or_raise (nth_first (split "." t));
  int_or_raise h.

Definition latest_version (s : fs) (folder string_to_glob : string)
    : result (option Z) :=
  let items := glob s (path_join folder string_to_glob) in
  match items with
  | [] => Ok None
  | _ =>
      let items := filter (fun x => endswith x "best.pth" = false) items in
      version ← map_result version_of items;
      m ← py_max version;
      mret (Some m)
  end.

(** [x or 0] for [x] an [int] or [None] *)
Definition or_zero (x : option Z) : Z :=
  match x with
  | None => 0
  | Some z => if Z.eqb z 0 then 0 else z
  end.

(** The loop of [latest_sub_experiment_epochs]: [latest_epochs] is the
    dictionary filled so far. *)
Fixpoint latest_sub_experiment_epochs_loop (s : fs)
    (items : list (string * list string)) (latest_epochs : dict Z)
    : result (dict Z) :=
  match items with
  | [] => Ok latest_epochs
  | (sub_experiment_name, folders) :: items' =>
      model_folder ← index_or_raise (nth_first folders);
      v ← latest_version s model_folder "trunk_*.pth";
      latest_sub_experiment_epochs_loop s items'
        (dict_set sub_experiment_name (or_zero v) latest_epochs)
  end.

Definition latest_sub_experiment_epochs (s : fs)
    (sub_experiment_dir_dict : dict (list string)) : result (dict Z) :=
  latest_sub_experiment_epochs_loop s sub_experiment_dir_dict [].

(* ===================================================================== *)
(** ** Discovery of the resume-diff folders *)
(* ===================================================================== *)

(** The argument [split_scheme_name]: one name, or a list of prefixes. *)
Inductive scheme_arg : Type :=
  | SchemeName (name : string)
  | SchemePrefixes (prefixes : list string).

(** Iterating over the argument: a list gives its elements, a string its
    characters. *)
Definition iterate (a : scheme_arg) : list string :=
  match a with
  | SchemeName name => map (fun c => String c EmptyString) (list_ascii_of_string name)
  | SchemePrefixes prefixes => prefixes
  end.

(** [range(n)] *)
Definition range (n : Z) : list Z := map Z.of_nat (seq 0 (Z.to_nat n)).

(** [list(itertools.product(xs, ys))] *)
Definition product {A B} (xs : list A) (ys : list B) : list (A * B) :=
  flat_map (fun x => map (fun y => (x, y)) ys) xs.

(** A dictionary key must be hashable: a string is, a list is not. *)
Inductive scheme_key : Type :=
  | KeyStr (s : string)
  | KeyList (l : list string).

Definition hashable_key (k : scheme_key) : result string :=
  match k with
  | KeyStr s => Ok s
  | KeyList _ => Raise TypeError
  end.

(** [{split_scheme: epoch for (split_scheme, epoch) in zip(names, epochs)}] *)
Fixpoint scheme_epoch_dict (pairs : list (scheme_key * Z)) (acc : dict Z)
    : result (dict Z) :=
  match pairs with
  | [] => Ok acc
  | (k, epoch) :: pairs' =>
      name ← hashable_key k;
      scheme_epoch_dict pairs' (dict_set name epoch acc)
  end.

Definition folder_base_name : string := "resume_training_config_diffs_".

(** The names the parsed epochs are zipped with. *)
Definition split_scheme_names (split_scheme_name : scheme_arg)
    (num_training_sets : Z) : list scheme_key :=
  if 1 <? num_training_sets then
    map (fun si => KeyStr (fst si +:+ str_of_int (snd si)))
      (product (iterate split_scheme_name) (range num_training_sets))
  else
    [match split_scheme_name with
     | SchemeName name => KeyStr name
     | SchemePrefixes prefixes => KeyList prefixes
     end].

(** The body of the loop over the discovered folders. *)
Definition resume_training_entry (full_base_path : string)
    (names : list scheme_key) (k : string) : result (dict Z) :=
  latest_epochs ← map_result int_or_raise (split "_" (remove_all k full_base_path));
  scheme_epoch_dict (zip names latest_epochs) [].

Fixpoint resume_training_loop (full_base_path : string)
    (names : list scheme_key) (config_diffs : list string)
    (resume_training_dict : dict (dict Z)) : result (dict (dict Z)) :=
  match config_diffs with
  | [] => Ok resume_training_dict
  | k :: config_diffs' =>
      entry ← resume_training_entry full_base_path names k;
      resume_training_loop full_base_path names config_diffs'
        (dict_set k entry resume_training_dict)
  end.

Definition get_all_resume_training_config_diffs (s : fs)
    (config_folder : string) (split_scheme_name : scheme_arg)
    (num_training_sets : Z) : result (dict (dict Z)) :=
  let full_base_path := path_join config_folder folder_base_name in
  let config_diffs := sorted (glob s (full_base_path +:+ "*")) in
  let names := split_scheme_names split_scheme_name num_training_sets in
  resume_training_loop full_base_path names config_diffs [].

(* ===================================================================== *)
(** ** Saving the configuration documents *)
(* ===================================================================== *)

(** [max_merge_depth]: a number, or [float('inf')]. *)
Inductive merge_depth : Type :=
  | Depth (n : nat)
  | Unbounded.

Definition depth_below (curr_depth : nat) (max_merge_depth : merge_depth) : bool :=
  match max_merge_depth with
  | Depth n => (curr_depth <? n)%nat
  | Unbounded => true
  end.

(** Modelled from the spec: [merge_two_dicts] of the package
    [easy_module_attribute_getter], which is imported and not part of the
    sources.  Two mappings in, the merged mapping out: the result starts as
    a copy of the existing mapping [x]; every key of the new mapping [y] is
    assigned its new value, except that below the maximal merge depth a key
    bound to a mapping on both sides is merged recursively.  At depth 0 the
    top-level values of [y] win as they are. *)
Fixpoint merge_from (curr_depth : nat) (max_merge_depth : merge_depth)
    (x : document) (y : yaml) {struct y} : document :=
  match y with
  | YDict items =>
      (fix go (z : document) (items : list (string * yaml)) : document :=
         match items with
         | [] => z
         | (k, v) :: items' =>
             go (dict_set k
                   (match dict_get k z, v with
                    | Some (YDict zk), YDict _ =>
                        if depth_below curr_depth max_merge_depth
                        then YDict (merge_from (S curr_depth) max_merge_depth zk v)
                        else v
                    | _, _ => v
                    end) z) items'
         end) x items
  | _ => x
  end.

Definition merge_two_dicts (x y : document) (max_merge_depth : merge_depth)
    : document :=
  merge_from 0 max_merge_depth x (YDict y).

(** The merge utility applied to what [load_yaml] returned: [None] (an
    empty file) is not a mapping. *)
Definition merge_loaded (x : option document) (y : document)
    (max_merge_depth : merge_depth) : result document :=
  match x with
  | Some x => Ok (merge_two_dicts x y max_merge_depth)
  | None => Raise AttributeError
  end.

(** The category of a document, from the key [k] it is stored under. *)
Definition config_category_name (k : string) : result string :=
  let k_split := split "/" k in
  category ← index_or_raise (nth_last2 k_split);
  if negb (startswith category "config_") then
    last_segment ← index_or_raise (nth_last k_split);
    mret (fst (splitext last_segment))
  else mret category.

(** The loop that fills [yaml_diff]. *)
Fixpoint yaml_diff_loop (curr_yaml : option document)
    (items : list (string * yaml)) (yaml_diff : document) : result document :=
  match items with
  | [] => Ok yaml_diff
  | (k2, v2) :: items' =>
      match curr_yaml with
      | None => Raise TypeError
      | Some curr =>
          let differs :=
            match dict_get k2 curr with
            | None => true
            | Some w => py_ne v2 w
            end in
          yaml_diff_loop curr_yaml items'
            (if differs then dict_set k2 v2 yaml_diff else yaml_diff)
      end
  end.

(** ['resume_training_config_diffs_' + '_'.join([str(epoch) for epoch in latest_epochs])] *)
Definition resume_folder_name (latest_epochs : list Z) : string :=
  "resume_training_config_diffs_" +:+ String.concat "_" (map str_of_int latest_epochs).

(** The body of the loop of [save_config_files], for the document [v]
    stored under [k]. *)
Definition save_config_file (config_folder : string)
    (resume_training reproduce_results : bool) (latest_epochs : list Z)
    (kv : string * document) : st fs unit :=
  let '(k, v) := kv in
  category ← reading (fun _ => config_category_name k);
  let fname := path_join config_folder (category +:+ ".yaml") in
  if negb resume_training then
    is_file ← reading (fun s => Ok (os_path_isfile s fname));
    v ← (if is_file : bool then
           loaded ← reading (fun s => load_yaml s fname);
           reading (fun _ => merge_loaded loaded v
                     (if reproduce_results then Depth 0 else Unbounded))
         else mret v);
    write_yaml fname v mode_w
  else
    curr_yaml ← reading (fun s => load_yaml s fname);
    yaml_diff ← reading (fun _ => yaml_diff_loop curr_yaml v []);
    if negb (Nat.eqb (length yaml_diff) 0) then
      let new_dir := path_join config_folder (resume_folder_name latest_epochs) in
      _ ← makedir_if_not_there new_dir;
      let fname := path_join new_dir (category +:+ ".yaml") in
      write_yaml fname yaml_diff mode_a
    else mret tt.

Definition save_config_files (config_folder : string)
    (dict_of_yamls : dict document) (resume_training reproduce_results : bool)
    (latest_epochs : list Z) : st fs unit :=
  _ ← makedir_if_not_there config_folder;
  for_each dict_of_yamls
    (save_config_file config_folder resume_training reproduce_results latest_epochs).


(* ===================================================================== *)
(** ** The checkpoint store *)
(* ===================================================================== *)

(** The payload of one entry of a state dictionary. *)
Inductive tensor : Type := Tensor (id : nat).

Abbreviation state_dict := (list (string * tensor)).

(** A named stateful object, as far as the code inspects it: [parameters]
    is what [v.parameters()] enumerates, [None] when the object has no such
    method (an optimizer). *)
Record object : Type := {
  object_id : nat;
  parameters : option (list tensor)
}.

(** The checkpoint identifier: an epoch number or a marker such as "best". *)
Inductive identifier : Type :=
  | IdInt (z : Z)
  | IdStr (s : string).

Definition str_of_identifier (i : identifier) : string :=
  match i with
  | IdInt z => str_of_int z
  | IdStr s => s
  end.

Definition experiment_filename (folder basename : string)
    (identifier : option identifier) (extension : string) : string :=
  match identifier with
  | None => path_join folder (basename +:+ extension)
  | Some i => path_join folder (basename +:+ "_" +:+ str_of_identifier i +:+ extension)
  end.

(** The calls into the tensor runtime, the operating system and the logger,
    indexed by what they return. *)
Inductive call : Type -> Type :=
  | model_cpu (model : object) : call object
  | model_state_dict (model : object) : call state_dict
  | torch_save (state : state_dict) (filepath : string) : call unit
  | torch_load (model_filename : string) (map_location : option string) : call state_dict
  | model_load_state_dict (model_def : object) (state : state_dict) : call unit
  | os_remove (path : string) : call unit
  | logging_info (msg : string) : call unit.

(** One call and how it was answered. *)
Inductive event : Type :=
  | Event {X : Type} (c : call X) (r : result X).

(** Whatever answers the calls, and the calls made so far. *)
Record world (W : Type) : Type := {
  ext : W;
  trace : list event
}.
Arguments ext {W} w.
Arguments trace {W} w.

(** How an environment answers a call. *)
Definition handler (W : Type) : Type :=
  forall X : Type, call X -> W -> W * result X.

Definition perform {W X} (h : handler W) (c : call X) : st (world W) X :=
  fun w =>
    let '(e, r) := h X c (ext w) in
    ({| ext := e; trace := trace w ++ [Event c r] |}, r).

(** [except:] and [except BaseException:] catch everything. *)
Definition any_exception (e : exn) : bool := true.

(** The state dictionary with [k[7:]] for every key [k]. *)
Definition strip_module_prefix (state : state_dict) : state_dict :=
  dict_of_items (map (fun kv => (drop_str 7 (fst kv), snd kv)) state).

(** [len([i for i in v.parameters()])]; no method is an AttributeError. *)
Definition count_parameters (v : object) : result nat :=
  match parameters v with
  | Some ps => Ok (length ps)
  | None => Raise AttributeError
  end.

Section Checkpoint.

Context {W : Type} (h : handler W).

(** The body of the [try] of [load_model]. *)
Definition load_direct (model_def : object) (model_filename device : string)
    : st (world W) unit :=
  state ← perform h (torch_load model_filename (Some device));
  perform h (model_load_state_dict model_def state).

(** The body of its [except]. *)
Definition load_stripped (model_def : object) (model_filename : string)
    : st (world W) unit :=
  state_dict ← perform h (torch_load model_filename None);
  let new_state_dict := strip_module_prefix state_dict in
  perform h (model_load_state_dict model_def new_state_dict).

Definition load_model (model_def : object) (model_filename device : string)
    : st (world W) unit :=
  try_except (load_direct model_def model_filename device) any_exception
    (fun _ => load_stripped model_def model_filename).

(** The body of the [try] of [save_model_or_optimizer]. *)
Definition save_from_cpu (model : object) (filepath : string)
    : st (world W) unit :=
  on_cpu ← perform h (model_cpu model);
  state ← perform h (model_state_dict on_cpu);
  perform h (torch_save state filepath).

(** The body of its [except]. *)
Definition save_as_is (model : object) (filepath : string)
    : st (world W) unit :=
  state ← perform h (model_state_dict model);
  perform h (torch_save state filepath).

Definition save_model_or_optimizer (model : object) (model_name filepath : string)
    : st (world W) unit :=
  try_except (save_from_cpu model filepath) any_exception
    (fun _ => save_as_is model filepath).

Definition operate_on_dict_of_models (input_dict : dict object)
    (suffix : option identifier) (folder : string)
    (operation : string -> object -> string -> st (world W) unit)
    (logging_string : string) : st (world W) unit :=
  for_each input_dict (fun kv =>
    let '(k, v) := kv in
    let opt_cond := contains k "optimizer" in
    cond ← (if opt_cond then mret true
            else n ← reading (fun _ => count_parameters v);
                 mret (0 <? n)%nat);
    if cond : bool then
      let model_path := experiment_filename folder k suffix ".pth" in
      _ ← (if negb (String.eqb logging_string "")
           then perform h (logging_info (logging_string +:+ " " +:+ model_path))
           else mret tt);
      operation k v model_path
    else mret tt).

Definition save_dict_of_models (input_dict : dict object)
    (suffix : option identifier) (folder : string) : st (world W) unit :=
  let operation := fun k v model_path => save_model_or_optimizer v k model_path in
  operate_on_dict_of_models input_dict suffix folder operation "".

Definition load_dict_of_models (input_dict : dict object)
    (suffix : option identifier) (folder device : string) : st (world W) unit :=
  let operation := fun (k : string) v model_path => load_model v model_path device in
  operate_on_dict_of_models input_dict suffix folder operation "LOADING".

Definition delete_dict_of_models (input_dict : dict object)
    (suffix : option identifier) (folder : string) : st (world W) unit :=
  let operation := fun (k : string) (v : object) model_path =>
    try_except (perform h (os_remove model_path)) any_exception
      (fun _ => mret tt) in
  operate_on_dict_of_models input_dict suffix folder operation "".

End Checkpoint.

(* ===================================================================== *)
(** ** The trainer-kwargs assembler of the augmentation mode *)
(* ===================================================================== *)

(** A keyword argument of the trainer: what this class sets, or a value
    the base parser put there. *)
Inductive kwarg (T B : Type) : Type :=
  | KwList (l : list T)
  | KwNone
  | KwBool (b : bool)
  | KwBase (v : B).
Arguments KwList {T B} l.
Arguments KwNone {T B}.
Arguments KwBool {T B} b.
Arguments KwBase {T B} v.

Section Trainer.

(** [T]: a transform pipeline; [B]: the values of the base parser. *)
Context {T B : Type}.

(** [[transforms[k] for k in transforms.keys() if k.startswith("augmentation")]] *)
Definition augmentation_transforms (transforms : dict T) : list T :=
  omap (fun k => dict_get k transforms)
    (filter (fun k => startswith k "augmentation" = true) (dict_keys transforms)).

(** [get_trainer_kwargs], given what [super().get_trainer_kwargs()] and
    [self.get_transforms()] return. *)
Definition get_trainer_kwargs (super_get_trainer_kwargs : dict (kwarg T B))
    (get_transforms : dict T) : dict (kwarg T B) :=
  let trainer_kwargs := super_get_trainer_kwargs in
  let transforms := get_transforms in
  let trainer_kwargs :=
    dict_set "transforms" (KwList (augmentation_transforms transforms)) trainer_kwargs in
  let trainer_kwargs := dict_set "sampler" KwNone trainer_kwargs in
  let trainer_kwargs := dict_set "set_min_label_to_zero" (KwBool false) trainer_kwargs in
  trainer_kwargs.

End Trainer.

(* ===================================================================== *)
(** ** Moving an optimizer's state *)
(* ===================================================================== *)

Section MoveOptimizer.

(** [V]: a value of an optimizer state; [is_tensor] is [torch.is_tensor]
    and [to v device] is [v.to(device)], which may raise. *)
Context {V : Type} (is_tensor : V -> bool) (to : V -> string -> result V).

(** The inner loop, over the items of one state: [state] is the dictionary
    as assigned so far, kept when [to] raises. *)
Fixpoint move_state_loop (items : list (string * V)) (state : dict V)
    (device : string) : dict V * result unit :=
  match items with
  | [] => (state, Ok tt)
  | (k, v) :: items' =>
      if is_tensor v then
        match to v device with
        | Ok moved => move_state_loop items' (dict_set k moved state) device
        | Raise e => (state, Raise e)
        end
      else move_state_loop items' state device
  end.

(** [move_optimizer_to_gpu], on the values of [optimizer.state]: every
    state is updated in place. *)
Fixpoint move_optimizer_to_gpu (states : list (dict V)) (device : string)
    : list (dict V) * result unit :=
  match states with
  | [] => ([], Ok tt)
  | state :: states' =>
      match move_state_loop state state device with
      | (state', Ok _) =>
          let '(rest, r) := move_optimizer_to_gpu states' device in
          (state' :: rest, r)
      | (state', Raise e) => (state' :: states', Raise e)
      end
  end.

End MoveOptimizer.

(* ===================================================================== *)
(** ** The final linear layer of a model *)
(* ===================================================================== *)

(** A layer, as far as the code looks at it: [bool(layer)]. *)
Record layer : Type := {
  layer_id : nat;
  layer_truthy : bool
}.

(** The attributes of a model; an attribute may be bound to [None]. *)
Abbreviation model_attrs := (list (string * option layer)).

(** [getattr(input_model, name, None)] *)
Definition getattr_or_none (input_model : model_attrs) (name : string)
    : option layer :=
  match dict_get name input_model with
  | Some a => a
  | None => None
  end.

(** What [get_last_linear] returns: [None], the layer, or the pair of the
    layer and its name. *)
Inductive last_linear : Type :=
  | NoLayer
  | TheLayer (l : layer)
  | LayerAndName (l : layer) (name : string).

(** The loop of [get_last_linear] over the names still to try. *)
Fixpoint get_last_linear_loop (input_model : model_attrs) (return_name : bool)
    (names : list string) : last_linear :=
  match names with
  | [] => NoLayer
  | name :: names' =>
      match getattr_or_none input_model name with
      | Some last_layer =>
          if layer_truthy last_layer then
            if return_name then LayerAndName last_layer name
            else TheLayer last_layer
          else get_last_linear_loop input_model return_name names'
      | None => get_last_linear_loop input_model return_name names'
      end
  end.

Definition get_last_linear (input_model : model_attrs) (return_name : bool)
    : last_linear :=
  get_last_linear_loop input_model return_name ["fc"; "last_linear"].

(** [x[1]] for what [get_last_linear] returned: [None] cannot be indexed. *)
Definition second_of (x : last_linear) : result string :=
  match x with
  | LayerAndName _ name => Ok name
  | _ => Raise TypeError
  end.

(** [set_last_linear]: the model after the assignment. *)
Definition set_last_linear (input_model : model_attrs) (set_to : option layer)
    : result model_attrs :=
  name ← second_of (get_last_linear input_model true);
  mret (dict_set name set_to input_model).

(* ===================================================================== *)
(** ** Vocabulary of the statements, and inputs to run the code on *)
(* ===================================================================== *)

(** The separator [os.path.join] puts after [a]. *)
Definition sep_after (a : string) : string :=
  if String.eqb a "" || endswith a "/" then "" else "/".

(** A computation that leaves the node at path [p] as it is, whether it
    returns or raises. *)
Definition keeps {A} (p : string) (m : st fs A) : Prop :=
  forall s : fs, (m s).1 !! p = s !! p.

(** Is the binding [kv] of the new document absent from, or different in,
    the document [curr]? *)
Definition differs (curr : document) (kv : string * yaml) : bool :=
  match dict_get kv.1 curr with
  | None => true
  | Some w => py_ne kv.2 w
  end.



(** The number the decimal digits [d] stand for, after the digits of [acc]. *)
Fixpoint uint_value (d : Decimal.uint) (acc : Z) : Z :=
  match d with
  | Decimal.Nil => acc
  | Decimal.D0 l => uint_value l (10 * acc + 0)
  | Decimal.D1 l => uint_value l (10 * acc + 1)
  | Decimal.D2 l => uint_value l (10 * acc + 2)
  | Decimal.D3 l => uint_value l (10 * acc + 3)
  | Decimal.D4 l => uint_value l (10 * acc + 4)
  | Decimal.D5 l => uint_value l (10 * acc + 5)
  | Decimal.D6 l => uint_value l (10 * acc + 6)
  | Decimal.D7 l => uint_value l (10 * acc + 7)
  | Decimal.D8 l => uint_value l (10 * acc + 8)
  | Decimal.D9 l => uint_value l (10 * acc + 9)
  end.

(** The files [latest_version] takes versions from in a model folder. *)
Definition trunk_files (s : fs) (model_folder : string) : list string :=
  filter (fun x => endswith x "best.pth" = false)
    (glob s (path_join model_folder "trunk_*.pth")).

(** What one sub-experiment contributes to the epoch map. *)
Definition sub_experiment_epoch (s : fs) (folders : list string) : result Z :=
  model_folder ← index_or_raise (nth_first folders);
  v ← latest_version s model_folder "trunk_*.pth";
  mret (or_zero v).

(** A directory holding [trunk_3.pth], [trunk_7.pth] and [trunk_best.pth]. *)
Definition three_trunks : fs :=
  list_to_map [("models/trunk_3.pth", File []);
               ("models/trunk_7.pth", File []);
               ("models/trunk_best.pth", File [])].

(** A directory holding [trunk_best.pth] only. *)
Definition only_best : fs := {["models/trunk_best.pth" := File []]}.

(** A configuration folder after a fresh run: one category file. *)
Definition example_folder : fs :=
  list_to_map
    [("cfg", Dir);
     ("cfg/config_general.yaml",
      File [[("lr", YFloat 1 10); ("epochs", YInt 10)]])].

Definition example_key : string := "configs/config_general/default.yaml".

Definition example_document : document :=
  [("lr", YFloat 1 100); ("epochs", YInt 10)].


Definition nested_document : document :=
  [("a", YInt 1); ("b", YDict [("c", YInt 2)])].

(** An entry qualifies when its name holds "optimizer" or its object
    exposes at least one parameter. *)
Definition operable (kv : string * object) : bool :=
  contains kv.1 "optimizer"
  || match parameters kv.2 with
     | Some ps => (0 <? length ps)%nat
     | None => false
     end.




(** A runtime to run the checkpoint store against.  Its state is the list
    of checkpoint files.  Objects without parameters (optimizers) cannot be
    moved; a state is saved under keys with the [module.] prefix, which
    [load_state_dict] rejects. *)
Definition example_runtime : handler (list string) :=
  fun X c files =>
    match c in call X return list string * result X with
    | model_cpu model =>
        match parameters model with
        | Some _ => (files, Ok model)
        | None => (files, Raise AttributeError)
        end
    | model_state_dict model =>
        (files, Ok [("module.weight", Tensor (object_id model))])
    | torch_save _ filepath => (filepath :: files, Ok tt)
    | torch_load model_filename _ =>
        if bool_decide (model_filename ∈ files)
        then (files, Ok [("module.weight", Tensor 0)])
        else (files, Raise (OSError ENOENT))
    | model_load_state_dict _ state =>
        if dict_mem "module.weight" state
        then (files, Raise (OtherError "RuntimeError"))
        else (files, Ok tt)
    | os_remove path =>
        if bool_decide (path ∈ files)
        then (filter (fun p => p <> path) files, Ok tt)
        else (files, Raise (OSError ENOENT))
    | logging_info _ => (files, Ok tt)
    end.

Definition example_models : dict object :=
  [("trunk", {| object_id := 1; parameters := Some [Tensor 10] |});
   ("loss_fn", {| object_id := 2; parameters := Some [] |});
   ("trunk_optimizer", {| object_id := 3; parameters := None |})].

Definition empty_world : world (list string) := {| ext := []; trace := [] |}.

(** [[int(x) for x in k.replace(full_base_path, "").split('_')]] *)
Definition folder_epochs (full_base_path k : string) : result (list Z) :=
  map_result int_or_raise (split "_" (remove_all k full_base_path)).


(** A configuration folder with two resume-diff folders. *)
Definition resumed_folder : fs :=
  list_to_map
    [("cfg", Dir);
     ("cfg/config_general.yaml", File [[("lr", YFloat 1 10)]]);
     ("cfg/resume_training_config_diffs_5_7", Dir);
     ("cfg/resume_training_config_diffs_10_12", Dir)].

(** A value that Python can hold: the keys of every mapping in it are
    pairwise distinct. *)
#[warnings="-register-all"]
Inductive wf_yaml : yaml -> Prop :=
  | wf_none : wf_yaml YNone
  | wf_bool b : wf_yaml (YBool b)
  | wf_int z : wf_yaml (YInt z)
  | wf_float n d : wf_yaml (YFloat n d)
  | wf_str s : wf_yaml (YStr s)
  | wf_list l : Forall wf_yaml l -> wf_yaml (YList l)
  | wf_dict d :
      NoDup (dict_keys d) -> Forall (fun kv => wf_yaml kv.2) d ->
      wf_yaml (YDict d).

(** Is the attribute [name] of the model bound to something true? *)
Definition truthy_attr (input_model : model_attrs) (name : string) : bool :=
  match getattr_or_none input_model name with
  | Some l => layer_truthy l
  | None => false
  end.

(** A model with a pooling attribute and a final layer named [last_linear]. *)
Definition example_model : model_attrs :=
  [("avgpool", Some {| layer_id := 1; layer_truthy := true |});
   ("last_linear", Some {| layer_id := 2; layer_truthy := true |})].

(** A configuration folder with a resume-diff folder left by a run of
    another tool. *)
Definition foreign_folder : fs :=
  list_to_map
    [("cfg/resume_training_config_diffs_5_7", Dir);
     ("cfg/resume_training_config_diffs_backup", Dir)].

(** A value of an optimizer state to run the code on: a tensor on a device
    ([Some device]) or a plain number ([None]). *)
Definition example_is_tensor (v : option string) : bool :=
  match v with Some _ => true | None => false end.

(** Moving such a value always works and lands on the device. *)
Definition example_to (v : option string) (device : string)
    : result (option string) :=
  Ok (Some device).

Definition example_states : list (dict (option string)) :=
  [[("step", None); ("exp_avg", Some "cpu")]].

(* ===================================================================== *)
(** * Properties *)
(* ===================================================================== *)

(** ** Strings and paths *)

Lemma app_cons_str (c : ascii) (a b : string) :
  String c a +:+ b = String c (a +:+ b).
Proof. reflexivity. Qed.

Lemma app_nil_str (b : string) : "" +:+ b = b.
Proof. reflexivity. Qed.

Lemma length_app (a b : string) :
  String.length (a +:+ b) = (String.length a + String.length b)%nat.
Proof.
  induction a as [|c a IH]; [done|].
  rewrite app_cons_str. simpl. by rewrite IH.
Qed.

Lemma has_char_app (c : ascii) (a b : string) :
  has_char c (a +:+ b) = has_char c a || has_char c b.
Proof.
  induction a as [|d a IH]; [done|].
  rewrite app_cons_str. simpl. rewrite IH. by rewrite orb_assoc.
Qed.

Lemma app_empty_r (a : string) : a +:+ "" = a.
Proof.
  induction a as [|c a IH]; [done|]. by rewrite app_cons_str, IH.
Qed.

Lemma app_assoc_str (a b c : string) : (a +:+ b) +:+ c = a +:+ (b +:+ c).
Proof.
  induction a as [|d a IH]; [done|]. by rewrite !app_cons_str, IH.
Qed.


Lemma drop_str_has_char (c : ascii) (n : nat) (s : string) :
  has_char c (drop_str n s) = true -> has_char c s = true.
Proof.
  revert s; induction n as [|n IH]; intros [|d s]; simpl; try done.
  intros H. rewrite (IH _ H). by rewrite orb_true_r.
Qed.

Lemma take_str_has_char (c : ascii) (n : nat) (s : string) :
  has_char c s = false -> has_char c (take_str n s) = false.
Proof.
  revert s; induction n as [|n IH]; intros [|d s]; simpl; try done.
  intros [H1 H2]%orb_false_elim. rewrite H1. by apply IH.
Qed.

(** A string that ends with a piece holding [c] holds [c]. *)
Lemma endswith_has_char (c : ascii) (s p : string) :
  endswith s p = true -> has_char c p = true -> has_char c s = true.
Proof.
  unfold endswith. intros [_ H]%andb_true_iff Hp.
  apply String.eqb_eq in H. rewrite <- H in Hp.
  by apply drop_str_has_char in Hp.
Qed.

Lemma startswith_slash (b : string) :
  startswith b "/" = true -> has_char "/" b = true.
Proof.
  destruct b as [|c b]; simpl; [done|].
  intros [H _]%andb_true_iff. by rewrite H.
Qed.

Lemma split_not_nil (c : ascii) (s : string) : split c s <> [].
Proof.
  induction s as [|d s IH]; simpl; [done|].
  destruct (Ascii.eqb d c); [done|]. by destruct (split c s).
Qed.

(** No piece of [s.split(c)] holds the separator. *)
Lemma split_no_sep (c : ascii) (s seg : string) :
  seg ∈ split c s -> has_char c seg = false.
Proof.
  revert seg; induction s as [|d s IH]; simpl; intros seg.
  - intros ->%list_elem_of_singleton. done.
  - destruct (Ascii.eqb d c) eqn:E.
    + intros [->|H]%elem_of_cons; [done | by apply IH].
    + destruct (split c s) as [|seg0 rest] eqn:Es.
      * intros ->%list_elem_of_singleton. simpl.
        rewrite Ascii.eqb_sym, E. done.
      * intros [->|H]%elem_of_cons.
        -- simpl. rewrite Ascii.eqb_sym, E. simpl. apply IH. by left.
        -- apply IH. by right.
Qed.

Lemma nth_last_elem {A} (l : list A) (x : A) : nth_last l = Some x -> x ∈ l.
Proof.
  unfold nth_last. induction l as [|y l IH]; [done|].
  destruct l as [|z l]; simpl in *.
  - intros [= ->]. by left.
  - intros H. right. by apply IH.
Qed.

Lemma nth_last2_elem {A} (l : list A) (x : A) : nth_last2 l = Some x -> x ∈ l.
Proof.
  induction l as [|y l IH]; [done|].
  destruct l as [|z [|z' l]]; simpl in *; [done| |].
  - intros [= ->]. by left.
  - intros H. right. by apply IH.
Qed.

Lemma splitext_root_has_char (c : ascii) (p : string) :
  has_char c p = false -> has_char c (fst (splitext p)) = false.
Proof.
  intros H. unfold splitext.
  destruct (_ && _); simpl; [by apply take_str_has_char | done].
Qed.

(** The category of a document never holds a path separator. *)
Lemma config_category_name_no_slash (k cat : string) :
  config_category_name k = Ok cat -> has_char "/" cat = false.
Proof.
  unfold config_category_name.
  destruct (nth_last2 (split "/" k)) as [c2|] eqn:E2; simpl; [|done].
  destruct (startswith c2 "config_"); simpl.
  - intros [= <-]. eapply split_no_sep, nth_last2_elem, E2.
  - destruct (nth_last (split "/" k)) as [c1|] eqn:E1; simpl; [|done].
    intros [= <-]. apply splitext_root_has_char.
    eapply split_no_sep, nth_last_elem, E1.
Qed.

(** Joining puts the second component after the first, with or without a
    separator in between, when the second component is relative. *)
Lemma path_join_relative (a b : string) :
  startswith b "/" = false ->
  path_join a b = a +:+ b \/ path_join a b = a +:+ "/" +:+ b.
Proof.
  intros H. unfold path_join. rewrite H.
  destruct (_ || _); [by left | by right].
Qed.

Lemma no_slash_relative (b : string) :
  has_char "/" b = false -> startswith b "/" = false.
Proof.
  intros H. destruct (startswith b "/") eqn:E; [|done].
  apply startswith_slash in E. congruence.
Qed.

Lemma drop_str_app_ge (a b : string) (n : nat) :
  (String.length a <= n)%nat ->
  drop_str n (a +:+ b) = drop_str (n - String.length a) b.
Proof.
  revert n; induction a as [|c a IH]; intros n Hn.
  - rewrite app_nil_str. simpl. by rewrite Nat.sub_0_r.
  - rewrite app_cons_str. simpl in Hn. destruct n as [|n]; [lia|].
    simpl. apply IH. lia.
Qed.

(** When a joined string ends with a separator, so does its non-empty
    second part. *)
Lemma endswith_app_has_char (a b : string) :
  b <> "" -> endswith (a +:+ b) "/" = true -> has_char "/" b = true.
Proof.
  intros Hb [Hlen H]%andb_true_iff.
  apply String.eqb_eq in H.
  assert (1 <= String.length b)%nat by (destruct b; simpl; [done | lia]).
  rewrite length_app in H. simpl in H.
  rewrite drop_str_app_ge in H by lia.
  apply (drop_str_has_char "/" (String.length a + String.length b - 1
                                - String.length a) b).
  by rewrite H.
Qed.

Lemma path_join_sep (a b : string) :
  startswith b "/" = false -> path_join a b = a +:+ sep_after a +:+ b.
Proof.
  intros H. unfold path_join, sep_after. rewrite H.
  by destruct (_ || _).
Qed.

Lemma app_not_self (a b : string) : b <> "" -> a +:+ b <> a.
Proof.
  intros Hb E. apply (f_equal String.length) in E.
  rewrite length_app in E. destruct b; simpl in E; [done | lia].
Qed.

Lemma yaml_name_not_empty (c : string) : c +:+ ".yaml" <> "".
Proof. destruct c; [done | by rewrite app_cons_str]. Qed.

Lemma yaml_name_relative (c : string) :
  has_char "/" c = false -> startswith (c +:+ ".yaml") "/" = false.
Proof.
  intros H. apply no_slash_relative. rewrite has_char_app, H. done.
Qed.

Lemma resume_folder_name_cons (latest_epochs : list Z) :
  resume_folder_name latest_epochs
  = String "r" ("esume_training_config_diffs_"
                +:+ String.concat "_" (map str_of_int latest_epochs)).
Proof. reflexivity. Qed.

Lemma resume_folder_name_relative (latest_epochs : list Z) :
  startswith (resume_folder_name latest_epochs) "/" = false.
Proof. reflexivity. Qed.

(** A file in a resume-diff folder is never a category file of the
    configuration folder. *)
Lemma diff_file_not_category_file (config_folder c c' : string)
    (latest_epochs : list Z) :
  has_char "/" c = false -> has_char "/" c' = false ->
  path_join (path_join config_folder (resume_folder_name latest_epochs))
            (c +:+ ".yaml")
  <> path_join config_folder (c' +:+ ".yaml").
Proof.
  intros Hc Hc'.
  rewrite (path_join_sep _ (c +:+ ".yaml")) by by apply yaml_name_relative.
  rewrite (path_join_sep _ (c' +:+ ".yaml")) by by apply yaml_name_relative.
  rewrite (path_join_sep _ (resume_folder_name _))
    by apply resume_folder_name_relative.
  set (D := resume_folder_name latest_epochs).
  rewrite <- (app_assoc_str config_folder (sep_after config_folder) (c' +:+ _)).
  rewrite <- !(app_assoc_str config_folder (sep_after config_folder) D).
  rewrite (app_assoc_str (config_folder +:+ sep_after config_folder) D).
  intros E%(inj (String.append _)).
  set (N := (config_folder +:+ sep_after config_folder) +:+ D) in *.
  assert (D <> "") as HD by (unfold D; by rewrite resume_folder_name_cons).
  clearbody D.
  assert (sep_after N = "/" \/ has_char "/" D = true) as Hsep.
  { unfold sep_after.
    destruct (String.eqb N "") eqn:E1.
    - apply String.eqb_eq in E1. unfold N in E1.
      apply (f_equal String.length) in E1. rewrite !length_app in E1.
      destruct D; simpl in E1; [done | lia].
    - destruct (endswith N "/") eqn:E2; [right | by left].
      unfold N in E2. by apply endswith_app_has_char in E2. }
  assert (has_char "/" (D +:+ sep_after N +:+ c +:+ ".yaml") = true) as Ht.
  { rewrite !has_char_app. destruct Hsep as [-> | ->]; [|done].
    by rewrite orb_true_r. }
  rewrite E, has_char_app, Hc' in Ht. done.
Qed.

Lemma string_of_uint_no_dot (d : Decimal.uint) :
  has_char "." (NilEmpty.string_of_uint d) = false.
Proof. induction d; simpl; done. Qed.

Lemma str_of_int_no_dot (z : Z) : has_char "." (str_of_int z) = false.
Proof.
  unfold str_of_int. destruct (Z.to_int z); simpl;
    apply string_of_uint_no_dot.
Qed.

Lemma concat_no_char (c : ascii) (sep : string) (l : list string) :
  has_char c sep = false ->
  (forall x, x ∈ l -> has_char c x = false) ->
  has_char c (String.concat sep l) = false.
Proof.
  intros Hsep. induction l as [|x l IH]; intros Hl; [done|].
  simpl. destruct l as [|y l].
  - apply Hl. by left.
  - rewrite !has_char_app, Hsep, (Hl x) by by left.
    simpl. apply IH. intros z Hz. apply Hl. by right.
Qed.

Lemma resume_folder_name_no_dot (latest_epochs : list Z) :
  has_char "." (resume_folder_name latest_epochs) = false.
Proof.
  unfold resume_folder_name. rewrite has_char_app. simpl.
  apply concat_no_char; [done|].
  intros x (z & -> & _)%list_elem_of_fmap. apply str_of_int_no_dot.
Qed.

(** A resume-diff folder is never a category file. *)
Lemma diff_folder_not_category_file (config_folder c' : string)
    (latest_epochs : list Z) :
  has_char "/" c' = false ->
  path_join config_folder (resume_folder_name latest_epochs)
  <> path_join config_folder (c' +:+ ".yaml").
Proof.
  intros Hc'.
  rewrite (path_join_sep _ (c' +:+ ".yaml")) by by apply yaml_name_relative.
  rewrite (path_join_sep _ (resume_folder_name _))
    by apply resume_folder_name_relative.
  intros E%(inj (String.append _))%(inj (String.append _)).
  pose proof (resume_folder_name_no_dot latest_epochs) as H.
  rewrite E, has_char_app in H. simpl in H. by rewrite orb_true_r in H.
Qed.

Lemma config_folder_not_category_file (config_folder c' : string) :
  has_char "/" c' = false ->
  config_folder <> path_join config_folder (c' +:+ ".yaml").
Proof.
  intros Hc' E. symmetry in E. revert E.
  rewrite path_join_sep by by apply yaml_name_relative.
  apply app_not_self. destruct (sep_after config_folder); [|done].
  rewrite app_nil_str. apply yaml_name_not_empty.
Qed.

(** ** Running computations *)

Lemma st_bind_run {S A B} (m : st S A) (f : A -> st S B) (s : S) :
  (m ≫= f) s = match m s with
               | (s', Ok a) => f a s'
               | (s', Raise e) => (s', Raise e)
               end.
Proof. reflexivity. Qed.

Lemma st_ret_run {S A} (a : A) (s : S) : (mret a : st S A) s = (s, Ok a).
Proof. reflexivity. Qed.

Lemma keeps_ret {A} (p : string) (a : A) : keeps p (mret a).
Proof. by intros s. Qed.

Lemma keeps_raise {A} (p : string) (e : exn) : keeps p (raise e : st fs A).
Proof. by intros s. Qed.

Lemma keeps_reading {A} (p : string) (f : fs -> result A) : keeps p (reading f).
Proof. by intros s. Qed.

Lemma keeps_bind {A B} (p : string) (m : st fs A) (f : A -> st fs B) :
  keeps p m -> (forall a, keeps p (f a)) -> keeps p (m ≫= f).
Proof.
  intros Hm Hf s. rewrite st_bind_run. specialize (Hm s).
  destruct (m s) as [s' [a|e]]; simpl in *; [|done].
  by rewrite Hf.
Qed.

Lemma keeps_bind_reading {A B} (p : string) (r : fs -> result A)
    (f : A -> st fs B) :
  (forall s a, r s = Ok a -> keeps p (f a)) -> keeps p (reading r ≫= f).
Proof.
  intros Hf s. rewrite st_bind_run. unfold reading.
  destruct (r s) as [a|e] eqn:E; [|done]. by eapply Hf.
Qed.

Lemma keeps_try_except {A} (p : string) (body : st fs A)
    (handles : exn -> bool) (handler : exn -> st fs A) :
  keeps p body -> (forall e, keeps p (handler e)) ->
  keeps p (try_except body handles handler).
Proof.
  intros Hb Hh s. unfold try_except. specialize (Hb s).
  destruct (body s) as [s' [a|e]]; simpl in *; [done|].
  destruct (handles e); [|done]. by rewrite Hh.
Qed.

Lemma keeps_for_each {A} (p : string) (l : list A) (body : A -> st fs unit) :
  (forall x, x ∈ l -> keeps p (body x)) -> keeps p (for_each l body).
Proof.
  induction l as [|x l IH]; intros H; simpl.
  - apply keeps_ret.
  - apply keeps_bind; [apply H; by left|].
    intros _. apply IH. intros y Hy. apply H. by right.
Qed.

Lemma keeps_makedir_if_not_there (p dir_name : string) :
  p <> dir_name -> keeps p (makedir_if_not_there dir_name).
Proof.
  intros Hne. apply keeps_try_except.
  - intros s. unfold os_makedirs.
    destruct (String.eqb dir_name ""); [done|].
    destruct (s !! dir_name); simpl; [done|].
    by rewrite lookup_insert_ne.
  - intros e. destruct (negb (is_eexist e)); [apply keeps_raise | apply keeps_ret].
Qed.

Lemma keeps_write_yaml (p fname : string) (d : document) (mode : open_mode) :
  p <> fname -> keeps p (write_yaml fname d mode).
Proof.
  intros Hne s. unfold write_yaml.
  destruct (s !! fname) as [[|chunks]|], mode; simpl;
    by rewrite ?lookup_insert_ne.
Qed.

(** ** The resume branch leaves the category files alone *)

Lemma save_config_file_resume_keeps (config_folder c : string)
    (reproduce_results : bool) (latest_epochs : list Z)
    (kv : string * document) :
  has_char "/" c = false ->
  keeps (path_join config_folder (c +:+ ".yaml"))
    (save_config_file config_folder true reproduce_results latest_epochs kv).
Proof.
  intros Hc. destruct kv as [k v]. unfold save_config_file.
  apply keeps_bind_reading. intros _ category Hcat.
  apply config_category_name_no_slash in Hcat. simpl negb. cbv iota.
  apply keeps_bind; [apply keeps_reading|]. intros curr_yaml.
  apply keeps_bind; [apply keeps_reading|]. intros yaml_diff.
  destruct (negb _); [|apply keeps_ret].
  apply keeps_bind.
  - apply keeps_makedir_if_not_there.
    intros E. symmetry in E. by apply diff_folder_not_category_file in E.
  - intros _. apply keeps_write_yaml.
    intros E. symmetry in E. by apply diff_file_not_category_file in E.
Qed.

(** C10.  A run of [save_config_files] with [resume_training=True] leaves
    every category file [<config_folder>/<c>.yaml] exactly as it was (same
    documents, neither created nor removed), whether the run returns or
    raises: the only writes go to a file inside the resume-diff folder. *)
Theorem save_config_files_resume_keeps_category_files
    (config_folder : string) (dict_of_yamls : dict document)
    (reproduce_results : bool) (latest_epochs : list Z) (c : string) (s : fs) :
  has_char "/" c = false ->
  (save_config_files config_folder dict_of_yamls true reproduce_results
     latest_epochs s).1 !! path_join config_folder (c +:+ ".yaml")
  = s !! path_join config_folder (c +:+ ".yaml").
Proof.
  intros Hc. revert s. change (keeps (path_join config_folder (c +:+ ".yaml"))
    (save_config_files config_folder dict_of_yamls true reproduce_results
       latest_epochs)).
  unfold save_config_files. apply keeps_bind.
  - apply keeps_makedir_if_not_there.
    intros E. symmetry in E. by apply config_folder_not_category_file in E.
  - intros _. apply keeps_for_each. intros kv _.
    by apply save_config_file_resume_keeps.
Qed.

(** ** Dictionaries *)

Lemma dict_get_None {V} (k : string) (d : dict V) :
  dict_get k d = None <-> k ∉ dict_keys d.
Proof.
  induction d as [|[k' v] d IH]; simpl.
  - split; [intros _ H; by apply elem_of_nil in H | done].
  - destruct (String.eqb_spec k k') as [->|Hne].
    + split; [done|]. intros H. exfalso. apply H. by left.
    + rewrite IH, not_elem_of_cons. tauto.
Qed.

Lemma dict_get_Some_elem {V} (k : string) (v : V) (d : dict V) :
  dict_get k d = Some v -> (k, v) ∈ d.
Proof.
  induction d as [|[k' v'] d IH]; simpl; [done|].
  destruct (String.eqb_spec k k') as [->|Hne].
  - intros [= ->]. by left.
  - intros H. right. by apply IH.
Qed.

Lemma dict_get_elem {V} (k : string) (v : V) (d : dict V) :
  NoDup (dict_keys d) -> (k, v) ∈ d -> dict_get k d = Some v.
Proof.
  induction d as [|[k' v'] d IH]; simpl.
  - intros _ H. by apply elem_of_nil in H.
  - intros [Hk Hd]%NoDup_cons [[= -> ->]|H]%elem_of_cons.
    + by rewrite String.eqb_refl.
    + destruct (String.eqb_spec k k') as [->|Hne]; [|by apply IH].
      exfalso. apply Hk. unfold dict_keys.
      apply list_elem_of_fmap. by exists (k', v).
Qed.

Lemma dict_set_fresh {V} (k : string) (v : V) (d : dict V) :
  dict_get k d = None -> dict_set k v d = d ++ [(k, v)].
Proof.
  induction d as [|[k' v'] d IH]; simpl; [done|].
  destruct (String.eqb k k'); [done|]. intros H. by rewrite IH.
Qed.

Lemma dict_get_set_eq {V} (k : string) (v : V) (d : dict V) :
  dict_get k (dict_set k v d) = Some v.
Proof.
  induction d as [|[k' v'] d IH]; simpl.
  - by rewrite String.eqb_refl.
  - destruct (String.eqb k k') eqn:E; simpl.
    + by rewrite String.eqb_refl.
    + by rewrite E.
Qed.

Lemma dict_get_set_ne {V} (k k0 : string) (v : V) (d : dict V) :
  k0 <> k -> dict_get k0 (dict_set k v d) = dict_get k0 d.
Proof.
  intros Hne. induction d as [|[k' v'] d IH]; simpl.
  - by apply String.eqb_neq in Hne as ->.
  - destruct (String.eqb_spec k k') as [->|Hk]; simpl.
    + by apply String.eqb_neq in Hne as ->.
    + by rewrite IH.
Qed.

Lemma dict_keys_set_mem {V} (k : string) (v : V) (d : dict V) :
  is_Some (dict_get k d) -> dict_keys (dict_set k v d) = dict_keys d.
Proof.
  induction d as [|[k' v'] d IH]; simpl.
  - by intros [? ?].
  - destruct (String.eqb_spec k k') as [->|Hk]; simpl; [done|].
    intros H. by rewrite IH.
Qed.


(** ** The resume branch: the diff and where it goes *)

Lemma yaml_diff_loop_filter (curr : document) (items acc : document) :
  NoDup (dict_keys items) ->
  (forall k, k ∈ dict_keys items -> dict_get k acc = None) ->
  yaml_diff_loop (Some curr) items acc
  = Ok (acc ++ filter (fun kv => differs curr kv = true) items).
Proof.
  revert acc. induction items as [|[k2 v2] items IH]; intros acc Hnd Hacc.
  - simpl. by rewrite filter_nil, app_nil_r.
  - apply NoDup_cons in Hnd as [Hk2 Hnd].
    simpl. rewrite filter_cons.
    change (match dict_get k2 curr with
            | Some w => py_ne v2 w
            | None => true
            end) with (differs curr (k2, v2)).
    assert (forall k, k ∈ dict_keys items ->
                      dict_get k (dict_set k2 v2 acc) = None) as Hacc'.
    { intros k Hk. rewrite dict_get_set_ne.
      - apply Hacc. by right.
      - intros ->. done. }
    assert (dict_set k2 v2 acc = acc ++ [(k2, v2)]) as Hset.
    { apply dict_set_fresh, Hacc. by left. }
    destruct (differs curr (k2, v2)).
    + rewrite IH by done. rewrite Hset, <- app_assoc. by rewrite decide_True.
    + rewrite IH; [by rewrite decide_False | done |].
      intros k Hk. apply Hacc. by right.
Qed.




(** ** The fresh branch: merge and overwrite *)




Lemma load_yaml_isfile (s : fs) (fname : string) (r : option document) :
  load_yaml s fname = Ok r -> os_path_isfile s fname = true.
Proof.
  unfold load_yaml, read_file, os_path_isfile.
  by destruct (s !! fname) as [[|chunks]|].
Qed.

Lemma save_config_file_fresh_new
    (config_folder k : string) (v : document) (reproduce_results : bool)
    (latest_epochs : list Z) (s : fs) (category : string) :
  config_category_name k = Ok category ->
  s !! path_join config_folder (category +:+ ".yaml") = None ->
  save_config_file config_folder false reproduce_results latest_epochs (k, v) s
  = (<[path_join config_folder (category +:+ ".yaml") := File [v]]> s, Ok tt).
Proof.
  intros Hcat Hnone. unfold save_config_file.
  rewrite st_bind_run. unfold reading at 1. rewrite Hcat.
  change (negb false) with true. cbv beta iota.
  rewrite st_bind_run. unfold reading at 1. unfold os_path_isfile.
  rewrite Hnone. cbv beta iota.
  rewrite st_bind_run, st_ret_run. unfold write_yaml. by rewrite Hnone.
Qed.

Lemma save_config_file_fresh_existing
    (config_folder k : string) (v : document) (reproduce_results : bool)
    (latest_epochs : list Z) (s : fs) (category : string)
    (existing : document) :
  config_category_name k = Ok category ->
  load_yaml s (path_join config_folder (category +:+ ".yaml"))
  = Ok (Some existing) ->
  save_config_file config_folder false reproduce_results latest_epochs (k, v) s
  = (<[path_join config_folder (category +:+ ".yaml") :=
         File [merge_two_dicts existing v
                 (if reproduce_results then Depth 0 else Unbounded)]]> s,
     Ok tt).
Proof.
  intros Hcat Hload. unfold save_config_file.
  rewrite st_bind_run. unfold reading at 1. rewrite Hcat.
  change (negb false) with true. cbv beta iota.
  rewrite st_bind_run. unfold reading at 1.
  rewrite (load_yaml_isfile _ _ _ Hload). cbv beta iota.
  rewrite !st_bind_run. unfold reading at 1. rewrite Hload. cbv beta iota.
  unfold reading, merge_loaded. cbv beta iota.
  unfold write_yaml. unfold load_yaml, read_file in Hload.
  by destruct (s !! path_join config_folder (category +:+ ".yaml"))
    as [[|chunks]|].
Qed.


(** ** The category of a document *)

Lemma split_app (c : ascii) (a b : string) :
  split c (a +:+ String c b) = split c a ++ split c b.
Proof.
  induction a as [|d a IH].
  - rewrite app_nil_str. simpl. by rewrite Ascii.eqb_refl.
  - rewrite app_cons_str. simpl. rewrite IH.
    destruct (Ascii.eqb d c); [done|].
    pose proof (split_not_nil c a). by destruct (split c a).
Qed.

Lemma split_no_sep_id (c : ascii) (s : string) :
  has_char c s = false -> split c s = [s].
Proof.
  induction s as [|d s IH]; [done|].
  simpl. intros [H1 H2]%orb_false_elim.
  rewrite Ascii.eqb_sym, H1, IH; done.
Qed.

Lemma nth_last2_app {A} (l : list A) (x y : A) :
  nth_last2 (l ++ [x; y]) = Some x.
Proof.
  induction l as [|a l IH]; [done|].
  destruct l as [|b l]; [done|].
  simpl in *. by destruct (l ++ [x; y]).
Qed.

Lemma nth_last_app {A} (l : list A) (x y : A) :
  nth_last (l ++ [x; y]) = Some y.
Proof.
  unfold nth_last. change [x; y] with ([x] ++ [y]).
  by rewrite app_assoc, last_snoc.
Qed.

Lemma split_two_segments (l : list string) (parent base : string) :
  index_or_raise (nth_last2 (l ++ [parent; base])) ≫=
    (fun category =>
       if negb (startswith category "config_") then
         index_or_raise (nth_last (l ++ [parent; base])) ≫=
           (fun last_segment => mret (fst (splitext last_segment)))
       else mret category)
  = Ok (if startswith parent "config_" then parent else (splitext base).1).
Proof.
  rewrite nth_last2_app, nth_last_app. simpl.
  by destruct (startswith parent "config_").
Qed.

(** C5, as the code has it.  A key with a single segment has no
    second-to-last segment: the category is not the base name, the lookup
    raises and nothing is persisted. *)
Lemma config_category_name_single_segment :
  config_category_name "default.yaml" = Raise IndexError
  /\ (splitext "default.yaml").1 = "default"
  /\ config_category_name "default.yaml" <> Ok "default"
  /\ save_config_files "cfg" [("default.yaml", [("lr", YInt 1)])]
       false false [] ∅
     = (<["cfg" := Dir]> ∅, Raise IndexError).
Proof. repeat split; done. Qed.

(** C5, amended.  For a key with at least two segments, [parent/base] or
    [dir/parent/base], the category is [parent] when it starts with
    [config_] and otherwise [base] without its extension; the fresh branch
    persists the document to [<config_folder>/<category>.yaml] and the
    resume branch reads that file. *)
Theorem config_category_name_two_segments
    (dir parent base : string) :
  has_char "/" parent = false ->
  has_char "/" base = false ->
  let category :=
    if startswith parent "config_" then parent else (splitext base).1 in
  config_category_name (parent +:+ "/" +:+ base) = Ok category
  /\ config_category_name (dir +:+ "/" +:+ parent +:+ "/" +:+ base) = Ok category
  /\ forall config_folder k v reproduce_results latest_epochs (s : fs),
       config_category_name k = Ok category ->
       let fname := path_join config_folder (category +:+ ".yaml") in
       ((s !! fname = None \/ exists d, load_yaml s fname = Ok (Some d)) ->
        exists d,
          save_config_file config_folder false reproduce_results
            latest_epochs (k, v) s
          = (<[fname := File [d]]> s, Ok tt))
       /\ (s !! fname = None ->
           save_config_file config_folder true reproduce_results
             latest_epochs (k, v) s
           = (s, Raise (OSError ENOENT))).
Proof.
  intros Hp Hb category. split; [|split].
  - unfold config_category_name.
    change (parent +:+ "/" +:+ base) with (parent +:+ String "/" base).
    rewrite split_app, (split_no_sep_id _ parent), (split_no_sep_id _ base)
      by done.
    apply (split_two_segments []).
  - unfold config_category_name.
    change (dir +:+ "/" +:+ parent +:+ "/" +:+ base)
      with (dir +:+ String "/" (parent +:+ String "/" base)).
    rewrite !split_app, (split_no_sep_id _ parent), (split_no_sep_id _ base)
      by done.
    apply (split_two_segments (split "/" dir)).
  - intros config_folder k v rr le s Hcat fname.
    split.
    + intros [Hnone | (d & Hd)].
      * eexists. by apply save_config_file_fresh_new.
      * eexists. by apply save_config_file_fresh_existing.
    + intros Hnone. unfold save_config_file.
      rewrite st_bind_run. unfold reading at 1. rewrite Hcat.
      change (negb true) with false. cbv beta iota.
      rewrite st_bind_run. unfold reading at 1.
      unfold load_yaml, read_file. fold fname. by rewrite Hnone.
Qed.

(** ** Reading back a printed integer *)

Lemma int_digits_string_of_uint (d : Decimal.uint) (acc : Z) :
  int_digits (NilEmpty.string_of_uint d) acc true = Some (uint_value d acc).
Proof. revert acc. induction d; intros acc; simpl; [done | apply IHd ..]. Qed.

Lemma int_digits_string_of_uint_first (d : Decimal.uint) (acc : Z) :
  d <> Decimal.Nil ->
  int_digits (NilEmpty.string_of_uint d) acc false = Some (uint_value d acc).
Proof. destruct d; [done | intros _; simpl; apply int_digits_string_of_uint ..]. Qed.

Lemma uint_value_of_uint_acc (d : Decimal.uint) (acc : positive) :
  Z.pos (Pos.of_uint_acc d acc) = uint_value d (Z.pos acc).
Proof.
  revert acc. induction d; intros acc; simpl; [done | ..];
    rewrite IHd; f_equal; lia.
Qed.

Lemma uint_value_of_uint (d : Decimal.uint) : uint_value d 0 = Z.of_uint d.
Proof.
  unfold Z.of_uint.
  induction d; simpl; [done | exact IHd | ..];
    by rewrite uint_value_of_uint_acc.
Qed.

(** Printed digits start with a digit: no white space, no sign. *)
Lemma py_int_string_of_uint (d : Decimal.uint) :
  d <> Decimal.Nil ->
  py_int (NilEmpty.string_of_uint d) = Some (Z.of_uint d).
Proof.
  intros Hd. rewrite <- uint_value_of_uint.
  rewrite <- int_digits_string_of_uint_first by done.
  by destruct d.
Qed.

(** [int(str(z)) == z] *)
Lemma py_int_str_of_int (z : Z) : py_int (str_of_int z) = Some z.
Proof.
  rewrite <- (DecimalZ.of_to z) at 2. unfold str_of_int.
  destruct z as [|p|p]; [done | ..]; simpl Z.to_int.
  - apply py_int_string_of_uint, DecimalPos.Unsigned.to_uint_nonnil.
  - simpl NilEmpty.string_of_int. simpl Z.of_int.
    unfold py_int. simpl.
    rewrite int_digits_string_of_uint_first
      by apply DecimalPos.Unsigned.to_uint_nonnil.
    by rewrite uint_value_of_uint.
Qed.

Lemma string_of_uint_no_underscore (d : Decimal.uint) :
  has_char "_" (NilEmpty.string_of_uint d) = false.
Proof. induction d; simpl; done. Qed.

Lemma str_of_int_no_underscore (z : Z) : has_char "_" (str_of_int z) = false.
Proof.
  unfold str_of_int. destruct (Z.to_int z); simpl;
    apply string_of_uint_no_underscore.
Qed.

Lemma nth_last_snoc {A} (l : list A) (x : A) : nth_last (l ++ [x]) = Some x.
Proof. apply last_snoc. Qed.

(** The version of a checkpoint file named [<prefix>_<z>.pth] is [z]. *)
Lemma version_of_numbered (prefix : string) (z : Z) :
  version_of (prefix +:+ "_" +:+ str_of_int z +:+ ".pth") = Ok z.
Proof.
  unfold version_of.
  change (prefix +:+ "_" +:+ str_of_int z +:+ ".pth")
    with (prefix +:+ String "_" (str_of_int z +:+ ".pth")).
  rewrite split_app.
  rewrite (split_no_sep_id "_" (str_of_int z +:+ ".pth"))
    by (by rewrite has_char_app, str_of_int_no_underscore).
  rewrite nth_last_snoc. simpl.
  change (str_of_int z +:+ ".pth") with (str_of_int z +:+ String "." "pth").
  rewrite split_app, (split_no_sep_id "." (str_of_int z))
    by apply str_of_int_no_dot.
  simpl. unfold int_or_raise. by rewrite py_int_str_of_int.
Qed.

(** ** The latest version of a checkpoint *)

Lemma filter_none {A} (P : A -> Prop) `{forall x, Decision (P x)} (l : list A) :
  (forall x, x ∈ l -> ~ P x) -> filter P l = [].
Proof.
  induction l as [|x l IH]; intros Hl; [done|].
  rewrite filter_cons, decide_False by (apply Hl; by left).
  apply IH. intros y Hy. apply Hl. by right.
Qed.

Lemma fold_max_ge (l : list Z) (z : Z) : z <= fold_left Z.max l z.
Proof.
  revert z. induction l as [|x l IH]; intros z; simpl; [lia|].
  specialize (IH (Z.max z x)). lia.
Qed.

Lemma fold_max_upper (l : list Z) (z y : Z) :
  y ∈ l -> y <= fold_left Z.max l z.
Proof.
  revert z. induction l as [|x l IH]; intros z.
  - intros H. by apply elem_of_nil in H.
  - intros [->|H]%elem_of_cons; simpl.
    + pose proof (fold_max_ge l (Z.max z x)). lia.
    + by apply IH.
Qed.

Lemma fold_max_elem (l : list Z) (z : Z) :
  fold_left Z.max l z = z \/ fold_left Z.max l z ∈ l.
Proof.
  revert z. induction l as [|x l IH]; intros z; simpl; [by left|].
  destruct (IH (Z.max z x)) as [E|E].
  - rewrite E. destruct (Z.max_spec z x) as [[_ ->]|[_ ->]];
      [right; by left | by left].
  - right. by right.
Qed.

(** [max] returns an element that bounds all the others. *)
Lemma py_max_spec (l : list Z) :
  l <> [] -> exists m, py_max l = Ok m /\ m ∈ l /\ forall z, z ∈ l -> z <= m.
Proof.
  destruct l as [|z l]; [done|]. intros _. eexists. split; [done|]. split.
  - destruct (fold_max_elem l z) as [-> | H]; [by left | by right].
  - intros y [->|H]%elem_of_cons; [apply fold_max_ge | by apply fold_max_upper].
Qed.

(** A comprehension whose every element evaluates returns the values. *)
Lemma map_result_ok {A B} (f : A -> result B) (l : list A) :
  (forall x, x ∈ l -> exists y, f x = Ok y) ->
  exists ys, map_result f l = Ok ys /\ Forall2 (fun x y => f x = Ok y) l ys.
Proof.
  induction l as [|x l IH]; intros Hl.
  - exists []. by split.
  - destruct (Hl x) as [y Hy]; [by left|].
    destruct IH as (ys & Hys & Hall); [intros z Hz; apply Hl; by right|].
    exists (y :: ys). simpl. rewrite Hy. simpl. rewrite Hys. simpl.
    split; [done | by constructor].
Qed.

Lemma latest_version_none (s : fs) (folder string_to_glob : string) :
  glob s (path_join folder string_to_glob) = [] ->
  latest_version s folder string_to_glob = Ok None.
Proof. unfold latest_version. by intros ->. Qed.

Lemma latest_version_max (s : fs) (model_folder : string) :
  trunk_files s model_folder <> [] ->
  (forall x, x ∈ trunk_files s model_folder -> exists z, version_of x = Ok z) ->
  exists m x,
    latest_version s model_folder "trunk_*.pth" = Ok (Some m)
    /\ x ∈ trunk_files s model_folder
    /\ version_of x = Ok m
    /\ forall y z, y ∈ trunk_files s model_folder -> version_of y = Ok z -> z <= m.
Proof.
  unfold trunk_files, latest_version. intros Hne Hall.
  destruct (glob s (path_join model_folder "trunk_*.pth")) as [|x0 items] eqn:E;
    [done|].
  set (files := filter _ (x0 :: items)) in *.
  destruct (map_result_ok version_of files Hall) as (version & -> & Hv).
  simpl.
  destruct (py_max_spec version) as (m & -> & Hm & Hub).
  { intros ->. apply Forall2_nil_inv_r in Hv. done. }
  simpl.
  apply (list_elem_of_lookup_1 version) in Hm as [i Hi].
  destruct (Forall2_lookup_r _ _ _ _ _ Hv Hi) as (x & Hx & Hxm).
  exists m, x. split; [done|]. split; [by eapply list_elem_of_lookup_2|].
  split; [done|]. intros y z Hy Hz.
  apply list_elem_of_lookup_1 in Hy as [j Hj].
  destruct (Forall2_lookup_l _ _ _ _ _ Hv Hj) as (z' & Hz' & Hyz).
  rewrite Hz in Hyz. injection Hyz as ->.
  apply Hub. by eapply list_elem_of_lookup_2.
Qed.

(** C9.  When at least one file matches the pattern and every matching
    file ends in [best.pth], [latest_version] raises: the emptiness guard
    has passed, the exclusion leaves nothing, and [max] of the empty list is
    a ValueError; neither [None] nor [0] is returned. *)
Theorem latest_version_only_best_raises
    (s : fs) (folder string_to_glob : string) :
  glob s (path_join folder string_to_glob) <> [] ->
  (forall x, x ∈ glob s (path_join folder string_to_glob) ->
             endswith x "best.pth" = true) ->
  latest_version s folder string_to_glob = Raise ValueError.
Proof.
  intros Hne Hbest. unfold latest_version.
  destruct (glob s (path_join folder string_to_glob)) as [|x items] eqn:E;
    [done|].
  rewrite filter_none; [done|].
  intros y Hy. rewrite (Hbest y Hy). done.
Qed.

Lemma latest_version_only_best_raises_witness :
  glob only_best (path_join "models" "trunk_*.pth") <> []
  /\ (forall x, x ∈ glob only_best (path_join "models" "trunk_*.pth") ->
                endswith x "best.pth" = true)
  /\ latest_version only_best "models" "trunk_*.pth" = Raise ValueError.
Proof.
  assert (glob only_best (path_join "models" "trunk_*.pth")
          = ["models/trunk_best.pth"]) as E by reflexivity.
  assert (forall x, x ∈ glob only_best (path_join "models" "trunk_*.pth") ->
                    endswith x "best.pth" = true) as Hall.
  { rewrite E. intros x ->%list_elem_of_singleton. reflexivity. }
  split; [by rewrite E|]. split; [exact Hall|].
  apply (latest_version_only_best_raises only_best "models" "trunk_*.pth");
    [by rewrite E | exact Hall].
Defined.

Lemma sub_experiment_epoch_inv (s : fs) (folders : list string) (e : Z) :
  sub_experiment_epoch s folders = Ok e ->
  exists model_folder v,
    nth_first folders = Some model_folder
    /\ latest_version s model_folder "trunk_*.pth" = Ok v
    /\ e = or_zero v.
Proof.
  unfold sub_experiment_epoch.
  destruct (nth_first folders) as [model_folder|]; simpl; [|done].
  destruct (latest_version s model_folder "trunk_*.pth") as [v|] eqn:Ev;
    simpl; [|done].
  intros [= <-]. by exists model_folder, v.
Qed.

Lemma latest_sub_experiment_epochs_loop_lookup (s : fs)
    (items : dict (list string)) (acc : dict Z) :
  NoDup (dict_keys items) ->
  (forall name folders, (name, folders) ∈ items ->
     exists e, sub_experiment_epoch s folders = Ok e) ->
  exists r,
    latest_sub_experiment_epochs_loop s items acc = Ok r
    /\ forall name,
         dict_get name r
         = match dict_get name items with
           | Some folders =>
               match sub_experiment_epoch s folders with
               | Ok e => Some e
               | Raise _ => None
               end
           | None => dict_get name acc
           end.
Proof.
  revert acc. induction items as [|[name1 folders1] items IH]; intros acc Hnd Hall.
  - by exists acc.
  - apply NoDup_cons in Hnd as [Hname1 Hnd]. simpl in Hname1.
    destruct (Hall name1 folders1) as [e He]; [by left|].
    pose proof He as (model_folder & v & Hf & Hv & ->)%sub_experiment_epoch_inv.
    destruct (IH (dict_set name1 (or_zero v) acc)) as (r & Hr & Hlook);
      [done | intros n f Hin; apply (Hall n f); by right |].
    exists r. split.
    + simpl. rewrite Hf. simpl. rewrite Hv. simpl. exact Hr.
    + intros name. rewrite Hlook. cbn [dict_get].
      destruct (String.eqb_spec name name1) as [->|Hne].
      * apply dict_get_None in Hname1 as ->.
        by rewrite He, dict_get_set_eq.
      * destruct (dict_get name items); [done|].
        by rewrite dict_get_set_ne.
Qed.

(** C4.  For a dictionary of sub-experiments whose model folders hold
    checkpoint files with a version in their name: the epoch map binds
    every sub-experiment to 0 when no file of its model folder matches
    [trunk_*.pth], and otherwise to the largest version among the matching
    files that do not end in [best.pth].  The version of [<..>_<z>.pth] is
    [z]; over [trunk_3.pth], [trunk_7.pth] and [trunk_best.pth] the latest
    version is 7. *)
Theorem latest_sub_experiment_epochs_max
    (s : fs) (sub_experiment_dir_dict : dict (list string)) :
  NoDup (dict_keys sub_experiment_dir_dict) ->
  (forall name folders, (name, folders) ∈ sub_experiment_dir_dict ->
     exists model_folder,
       nth_first folders = Some model_folder
       /\ (glob s (path_join model_folder "trunk_*.pth") = []
           \/ trunk_files s model_folder <> [])
       /\ forall x, x ∈ trunk_files s model_folder ->
                    exists z, version_of x = Ok z) ->
  (exists latest_epochs,
     latest_sub_experiment_epochs s sub_experiment_dir_dict = Ok latest_epochs
     /\ forall name model_folder rest,
          (name, model_folder :: rest) ∈ sub_experiment_dir_dict ->
          (glob s (path_join model_folder "trunk_*.pth") = [] ->
           dict_get name latest_epochs = Some 0)
          /\ (trunk_files s model_folder <> [] ->
              exists m x,
                dict_get name latest_epochs = Some m
                /\ x ∈ trunk_files s model_folder
                /\ version_of x = Ok m
                /\ forall y z, y ∈ trunk_files s model_folder ->
                               version_of y = Ok z -> z <= m))
  /\ (forall prefix z,
        version_of (prefix +:+ "_" +:+ str_of_int z +:+ ".pth") = Ok z)
  /\ latest_version three_trunks "models" "trunk_*.pth" = Ok (Some 7)
  /\ latest_sub_experiment_epochs three_trunks
       [("sub_experiment", ["models"])] = Ok [("sub_experiment", 7)].
Proof.
  intros Hnd Hall.
  split; [|split; [apply version_of_numbered | by split]].
  assert (forall name folders, (name, folders) ∈ sub_experiment_dir_dict ->
            exists e, sub_experiment_epoch s folders = Ok e) as Hok.
  { intros name folders Hin.
    destruct (Hall name folders Hin) as (model_folder & Hf & Hcase & Hver).
    unfold sub_experiment_epoch. rewrite Hf. simpl.
    destruct Hcase as [Hnone|Hsome].
    - rewrite latest_version_none by done. by eexists.
    - destruct (latest_version_max s model_folder Hsome Hver) as (m & x & -> & _).
      by eexists. }
  destruct (latest_sub_experiment_epochs_loop_lookup s sub_experiment_dir_dict
              [] Hnd Hok) as (r & Hr & Hlook).
  exists r. split; [exact Hr|].
  intros name model_folder rest Hin.
  rewrite Hlook, (dict_get_elem _ _ _ Hnd Hin).
  destruct (Hall name _ Hin) as (mf & [= <-] & _ & Hver).
  unfold sub_experiment_epoch. simpl. split.
  - intros Hnone. by rewrite latest_version_none.
  - intros Hsome.
    destruct (latest_version_max s model_folder Hsome Hver)
      as (m & x & -> & Hx & Hxm & Hub).
    exists m, x. simpl. split; [|done].
    unfold or_zero. by destruct (Z.eqb_spec m 0) as [->|].
Qed.

(** ** The theorems at concrete inputs *)

Lemma save_config_files_resume_keeps_category_files_witness :
  has_char "/" "config_general" = false
  /\ (save_config_files "cfg" [(example_key, example_document)] true false
        [5; 5] example_folder).1
       !! path_join "cfg" ("config_general" +:+ ".yaml")
     = example_folder !! path_join "cfg" ("config_general" +:+ ".yaml").
Proof.
  split; [reflexivity|].
  apply (save_config_files_resume_keeps_category_files "cfg"
           [(example_key, example_document)] false [5; 5] "config_general"
           example_folder).
  reflexivity.
Defined.




Lemma config_category_name_two_segments_witness :
  has_char "/" "config_general" = false
  /\ has_char "/" "default.yaml" = false
  /\ config_category_name "config_general/default.yaml" = Ok "config_general"
  /\ config_category_name "configs/config_general/default.yaml"
     = Ok "config_general"
  /\ config_category_name "configs/losses/default.yaml" = Ok "default".
Proof.
  split; [reflexivity|]. split; [reflexivity|].
  destruct (config_category_name_two_segments "configs" "config_general"
              "default.yaml" eq_refl eq_refl) as (H1 & H2 & _).
  destruct (config_category_name_two_segments "configs" "losses"
              "default.yaml" eq_refl eq_refl) as (_ & H3 & _).
  split; [exact H1|]. split; [exact H2 | exact H3].
Defined.

Lemma three_trunks_files :
  glob three_trunks (path_join "models" "trunk_*.pth")
  = ["models/trunk_7.pth"; "models/trunk_3.pth"; "models/trunk_best.pth"].
Proof. reflexivity. Defined.

Lemma latest_sub_experiment_epochs_max_witness :
  NoDup (dict_keys [("sub_experiment", ["models"])])
  /\ exists latest_epochs,
       latest_sub_experiment_epochs three_trunks [("sub_experiment", ["models"])]
       = Ok latest_epochs
       /\ forall name model_folder rest,
            (name, model_folder :: rest) ∈ [("sub_experiment", ["models"])] ->
            (glob three_trunks (path_join model_folder "trunk_*.pth") = [] ->
             dict_get name latest_epochs = Some 0)
            /\ (trunk_files three_trunks model_folder <> [] ->
                exists m x,
                  dict_get name latest_epochs = Some m
                  /\ x ∈ trunk_files three_trunks model_folder
                  /\ version_of x = Ok m
                  /\ forall y z, y ∈ trunk_files three_trunks model_folder ->
                                 version_of y = Ok z -> z <= m).
Proof.
  assert (NoDup (dict_keys [("sub_experiment", ["models"])])) as Hnd
    by apply NoDup_singleton.
  split; [exact Hnd|].
  assert (trunk_files three_trunks "models"
          = ["models/trunk_7.pth"; "models/trunk_3.pth"]) as Hfiles
    by (vm_compute; reflexivity).
  refine (proj1 (latest_sub_experiment_epochs_max three_trunks
                   [("sub_experiment", ["models"])] Hnd _)).
  intros name folders Hin. apply list_elem_of_singleton in Hin.
  injection Hin as -> ->.
  exists "models". split; [reflexivity|]. split.
  - right. rewrite Hfiles. discriminate.
  - intros x Hx. rewrite Hfiles in Hx.
    apply elem_of_cons in Hx as [->|Hx].
    + exists 7. vm_compute. reflexivity.
    + apply list_elem_of_singleton in Hx as ->.
      exists 3. vm_compute. reflexivity.
Defined.

(** ** The trainer-kwargs assembler *)

Lemma augmentation_transforms_values {T} (transforms : dict T) :
  NoDup (dict_keys transforms) ->
  augmentation_transforms transforms
  = map snd (filter (fun kv => startswith kv.1 "augmentation" = true) transforms).
Proof.
  unfold augmentation_transforms.
  assert (forall (d rest : dict T),
            (forall k v, (k, v) ∈ rest -> dict_get k d = Some v) ->
            omap (fun k => dict_get k d)
              (filter (fun k => startswith k "augmentation" = true) (dict_keys rest))
            = map snd (filter (fun kv => startswith kv.1 "augmentation" = true) rest))
    as Hgen.
  { intros d rest. induction rest as [|[k v] rest IH]; intros Hin; [done|].
    simpl. rewrite !filter_cons. simpl.
    destruct (decide (startswith k "augmentation" = true)); simpl.
    - rewrite (Hin k v) by by left. f_equal. apply IH.
      intros k' v' H. apply Hin. by right.
    - apply IH. intros k' v' H. apply Hin. by right. }
  intros Hnd. apply Hgen. intros k v Hin. by apply dict_get_elem.
Qed.

(** C8.  For the keyword arguments of the base parser and a mapping of
    named transform pipelines (with distinct names), the assembled
    arguments bind [transforms] to the pipelines whose name starts with
    [augmentation], in the order of the mapping, [sampler] to [None] and
    [set_min_label_to_zero] to [False]; every other key is bound as in
    the base arguments. *)
Theorem get_trainer_kwargs_overrides {T B : Type}
    (super_get_trainer_kwargs : dict (kwarg T B)) (get_transforms : dict T) :
  NoDup (dict_keys get_transforms) ->
  let trainer_kwargs :=
    get_trainer_kwargs super_get_trainer_kwargs get_transforms in
  dict_get "transforms" trainer_kwargs
  = Some (KwList
            (map snd
               (filter (fun kv => startswith kv.1 "augmentation" = true)
                  get_transforms)))
  /\ dict_get "sampler" trainer_kwargs = Some KwNone
  /\ dict_get "set_min_label_to_zero" trainer_kwargs = Some (KwBool false)
  /\ forall k,
       k <> "transforms" -> k <> "sampler" -> k <> "set_min_label_to_zero" ->
       dict_get k trainer_kwargs = dict_get k super_get_trainer_kwargs.
Proof.
  intros Hnd trainer_kwargs. unfold trainer_kwargs, get_trainer_kwargs.
  split; [|split; [|split]].
  - rewrite !dict_get_set_ne by done.
    by rewrite dict_get_set_eq, augmentation_transforms_values.
  - rewrite dict_get_set_ne by done. by rewrite dict_get_set_eq.
  - by rewrite dict_get_set_eq.
  - intros k H1 H2 H3. by rewrite !dict_get_set_ne.
Qed.

Lemma get_trainer_kwargs_overrides_witness :
  NoDup (dict_keys [("augmentation_flip", 1%nat); ("augmentation_crop", 2%nat);
                    ("eval_resize", 3%nat)])
  /\ get_trainer_kwargs
       [("sampler", KwBase "MPerClassSampler"); ("batch_size", KwBase "32")]
       [("augmentation_flip", 1%nat); ("augmentation_crop", 2%nat);
        ("eval_resize", 3%nat)]
     = [("sampler", KwNone); ("batch_size", KwBase "32");
        ("transforms", KwList [1%nat; 2%nat]);
        ("set_min_label_to_zero", KwBool false)]
  /\ dict_get "transforms"
       (get_trainer_kwargs
          [("sampler", KwBase "MPerClassSampler"); ("batch_size", KwBase "32")]
          [("augmentation_flip", 1%nat); ("augmentation_crop", 2%nat);
           ("eval_resize", 3%nat)])
     = Some (KwList [1%nat; 2%nat]).
Proof.
  assert (NoDup (dict_keys [("augmentation_flip", 1%nat);
                            ("augmentation_crop", 2%nat);
                            ("eval_resize", 3%nat)])) as Hnd.
  { apply (bool_decide_unpack _). vm_compute. exact I. }
  split; [exact Hnd|]. split; [reflexivity|].
  exact (proj1 (get_trainer_kwargs_overrides
                  [("sampler", KwBase "MPerClassSampler");
                   ("batch_size", KwBase "32")]
                  [("augmentation_flip", 1%nat); ("augmentation_crop", 2%nat);
                   ("eval_resize", 3%nat)] Hnd)).
Defined.

(** ** The checkpoint store: which entries are operated on *)

Lemma for_each_filter {S A} (P : A -> bool) (l : list A)
    (body body' : A -> st S unit) :
  (forall x w, x ∈ l ->
     body x w = if P x then body' x w else (w, Ok tt)) ->
  forall w, for_each l body w = for_each (filter (fun x => P x = true) l) body' w.
Proof.
  induction l as [|x l IH]; intros Hbody w; [done|].
  rewrite filter_cons. simpl. rewrite st_bind_run, Hbody by by left.
  assert (forall w', for_each l body w'
                     = for_each (filter (fun x => P x = true) l) body' w') as IH'.
  { apply IH. intros y w' Hy. apply Hbody. by right. }
  destruct (P x) eqn:E.
  - rewrite decide_True by done. simpl. rewrite st_bind_run.
    destruct (body' x w) as [w' [[]|e]]; [apply IH' | done].
  - rewrite decide_False by done. apply IH'.
Qed.

Lemma operate_on_dict_of_models_filter {W} (h : handler W)
    (input_dict : dict object) (suffix : option identifier) (folder : string)
    (operation : string -> object -> string -> st (world W) unit)
    (logging_string : string) :
  (forall k v, (k, v) ∈ input_dict -> contains k "optimizer" = false ->
               is_Some (parameters v)) ->
  forall w,
    operate_on_dict_of_models h input_dict suffix folder operation
      logging_string w
    = for_each (filter (fun kv => operable kv = true) input_dict)
        (fun kv =>
           _ ← (if negb (String.eqb logging_string "")
                then perform h (logging_info
                       (logging_string +:+ " "
                        +:+ experiment_filename folder kv.1 suffix ".pth"))
                else mret tt);
           operation kv.1 kv.2 (experiment_filename folder kv.1 suffix ".pth"))
        w.
Proof.
  intros Hexp. unfold operate_on_dict_of_models.
  apply for_each_filter. intros [k v] w Hin. unfold operable. simpl.
  destruct (contains k "optimizer") eqn:Ek; simpl.
  - by rewrite st_bind_run, st_ret_run.
  - destruct (Hexp k v Hin Ek) as [ps Hps].
    rewrite !st_bind_run. unfold reading, count_parameters. rewrite Hps.
    rewrite st_ret_run. by destruct (0 <? length ps)%nat.
Qed.

(** C6.  For a mapping of named objects in which every object whose name
    lacks "optimizer" has a parameter list, saving, loading and deleting
    each run their operation on exactly the entries whose name holds
    "optimizer" or whose object has at least one parameter, in the order
    of the mapping, and skip all the others. *)
Theorem dict_of_models_operate_on_operable {W} (h : handler W)
    (input_dict : dict object) (suffix : option identifier)
    (folder device : string) (w : world W) :
  (forall k v, (k, v) ∈ input_dict -> contains k "optimizer" = false ->
               is_Some (parameters v)) ->
  let entries := filter (fun kv => operable kv = true) input_dict in
  let model_path := fun kv : string * object =>
    experiment_filename folder kv.1 suffix ".pth" in
  (forall kv, kv ∈ entries <->
     kv ∈ input_dict
     /\ (contains kv.1 "optimizer" = true
         \/ exists ps, parameters kv.2 = Some ps /\ (0 < length ps)%nat))
  /\ save_dict_of_models h input_dict suffix folder w
     = for_each entries
         (fun kv => save_model_or_optimizer h kv.2 kv.1 (model_path kv)) w
  /\ load_dict_of_models h input_dict suffix folder device w
     = for_each entries
         (fun kv =>
            _ ← perform h (logging_info ("LOADING " +:+ model_path kv));
            load_model h kv.2 (model_path kv) device) w
  /\ delete_dict_of_models h input_dict suffix folder w
     = for_each entries
         (fun kv =>
            try_except (perform h (os_remove (model_path kv))) any_exception
              (fun _ => mret tt)) w.
Proof.
  intros Hexp entries model_path. split; [|split; [|split]].
  - intros [k v]. unfold entries. rewrite list_elem_of_filter.
    unfold operable. simpl. split.
    + intros [Hop Hin]. split; [done|].
      destruct (contains k "optimizer"); [by left|]. right.
      destruct (parameters v) as [ps|]; [|done].
      exists ps. split; [done|]. by apply Nat.ltb_lt.
    + intros [Hin Hop]. split; [|done].
      destruct Hop as [-> | (ps & -> & Hps)]; [done|].
      apply Nat.ltb_lt in Hps as ->. by rewrite orb_true_r.
  - unfold save_dict_of_models.
    rewrite operate_on_dict_of_models_filter by done.
    apply (f_equal (fun m : st (world W) unit => m w)).
    unfold entries, model_path. simpl. reflexivity.
  - unfold load_dict_of_models.
    by rewrite operate_on_dict_of_models_filter.
  - unfold delete_dict_of_models.
    by rewrite operate_on_dict_of_models_filter.
Qed.

(** ** The checkpoint store: one fallback, whose failure propagates *)

Lemma perform_run {W X} (h : handler W) (c : call X) (w : world W) :
  perform h c w
  = ({| ext := (h X c (ext w)).1;
        trace := trace w ++ [Event c (h X c (ext w)).2] |},
     (h X c (ext w)).2).
Proof. unfold perform. by destruct (h X c (ext w)). Qed.









Lemma dict_of_models_operate_on_operable_witness :
  (forall k v, (k, v) ∈ example_models -> contains k "optimizer" = false ->
               is_Some (parameters v))
  /\ filter (fun kv => operable kv = true) example_models
     = [("trunk", {| object_id := 1; parameters := Some [Tensor 10] |});
        ("trunk_optimizer", {| object_id := 3; parameters := None |})]
  /\ save_dict_of_models example_runtime example_models (Some (IdInt 5))
       "models" empty_world
     = for_each (filter (fun kv => operable kv = true) example_models)
         (fun kv =>
            save_model_or_optimizer example_runtime kv.2 kv.1
              (experiment_filename "models" kv.1 (Some (IdInt 5)) ".pth"))
         empty_world
  /\ ext (save_dict_of_models example_runtime example_models (Some (IdInt 5))
            "models" empty_world).1
     = ["models/trunk_optimizer_5.pth"; "models/trunk_5.pth"].
Proof.
  assert (forall k v, (k, v) ∈ example_models ->
            contains k "optimizer" = false -> is_Some (parameters v)) as Hexp.
  { intros k v Hin Hk. unfold example_models in Hin.
    apply elem_of_cons in Hin as [[= -> ->]|Hin]; [by exists [Tensor 10]|].
    apply elem_of_cons in Hin as [[= -> ->]|Hin]; [by exists []|].
    apply elem_of_cons in Hin as [[= -> ->]|Hin]; [discriminate Hk|].
    by apply elem_of_nil in Hin. }
  split; [exact Hexp|]. split; [reflexivity|]. split; [|reflexivity].
  exact (proj1 (proj2 (dict_of_models_operate_on_operable example_runtime
                         example_models (Some (IdInt 5)) "models" "cpu"
                         empty_world Hexp))).
Defined.

(** An optimizer cannot be moved to host memory and is saved as it is; a
    state saved under prefixed keys is installed with the keys stripped. *)
Lemma checkpoint_fallback_example :
  let optimizer := {| object_id := 3; parameters := None |} in
  let trunk := {| object_id := 1; parameters := Some [Tensor 10] |} in
  save_model_or_optimizer example_runtime optimizer "trunk_optimizer"
    "models/trunk_optimizer_5.pth" empty_world
  = ({| ext := ["models/trunk_optimizer_5.pth"];
        trace := [Event (model_cpu optimizer) (Raise AttributeError);
                  Event (model_state_dict optimizer)
                    (Ok [("module.weight", Tensor 3)]);
                  Event (torch_save [("module.weight", Tensor 3)]
                           "models/trunk_optimizer_5.pth") (Ok tt)] |},
     Ok tt)
  /\ load_model example_runtime trunk "models/trunk_5.pth" "cpu"
       {| ext := ["models/trunk_5.pth"]; trace := [] |}
     = ({| ext := ["models/trunk_5.pth"];
           trace := [Event (torch_load "models/trunk_5.pth" (Some "cpu"))
                       (Ok [("module.weight", Tensor 0)]);
                     Event (model_load_state_dict trunk
                              [("module.weight", Tensor 0)])
                       (Raise (OtherError "RuntimeError"));
                     Event (torch_load "models/trunk_5.pth" None)
                       (Ok [("module.weight", Tensor 0)]);
                     Event (model_load_state_dict trunk [("weight", Tensor 0)])
                       (Ok tt)] |},
        Ok tt)
  /\ (load_model example_runtime trunk "models/trunk_6.pth" "cpu"
        {| ext := ["models/trunk_5.pth"]; trace := [] |}).2
     = Raise (OSError ENOENT).
Proof. repeat split. Qed.

(** ** Discovery of the resume-diff folders: what is enumerated *)

Lemma insert_sorted_perm (x : string) (l : list string) :
  insert_sorted x l ≡ₚ x :: l.
Proof.
  induction l as [|y l IH]; simpl; [done|].
  destruct (String.leb x y); [done|].
  rewrite IH. apply Permutation_swap.
Qed.

(** [sorted] rearranges its argument. *)
Lemma sorted_perm (l : list string) : sorted l ≡ₚ l.
Proof.
  induction l as [|x l IH]; simpl; [done|].
  by rewrite insert_sorted_perm, IH.
Qed.



Lemma glob_NoDup (s : fs) (pattern : string) : NoDup (glob s pattern).
Proof. apply NoDup_filter, NoDup_fst_map_to_list. Qed.

(** [glob] returns the existing paths that match. *)
Lemma glob_elem (s : fs) (pattern p : string) :
  p ∈ glob s pattern <-> is_Some (s !! p) /\ glob_match pattern p = true.
Proof.
  unfold glob. rewrite list_elem_of_filter, list_elem_of_fmap. split.
  - intros [Hm ([p' n] & -> & Hin)]. split; [|done].
    apply elem_of_map_to_list in Hin. by exists n.
  - intros [[n Hn] Hm]. split; [done|].
    exists (p, n). split; [done|]. by apply elem_of_map_to_list.
Qed.

Local Arguments Ascii.eqb : simpl never.



(** ** Discovery of the resume-diff folders: reading a folder name back *)













(** ** Discovery of the resume-diff folders: names and epochs by position *)

Lemma scheme_epoch_dict_strings (names : list string) (epochs : list Z)
    (acc : dict Z) :
  scheme_epoch_dict (zip (map KeyStr names) epochs) acc
  = Ok (fold_left (fun d kv => dict_set kv.1 kv.2 d) (zip names epochs) acc).
Proof.
  revert epochs acc. induction names as [|name names IH]; intros epochs acc;
    [done|].
  destruct epochs as [|epoch epochs]; [done|]. simpl. apply IH.
Qed.

Lemma resume_training_entry_strings (full_base_path : string)
    (names : list string) (k : string) (epochs : list Z) :
  folder_epochs full_base_path k = Ok epochs ->
  resume_training_entry full_base_path (map KeyStr names) k
  = Ok (dict_of_items (zip names epochs)).
Proof.
  unfold resume_training_entry, folder_epochs. intros ->. simpl.
  apply scheme_epoch_dict_strings.
Qed.

Lemma resume_training_loop_lookup (full_base_path : string)
    (names : list scheme_key) (found : list string) (acc : dict (dict Z)) :
  NoDup found ->
  (forall k, k ∈ found -> dict_get k acc = None) ->
  (forall k, k ∈ found ->
     exists e, resume_training_entry full_base_path names k = Ok e) ->
  exists r,
    resume_training_loop full_base_path names found acc = Ok r
    /\ dict_keys r = dict_keys acc ++ found
    /\ (forall k e, k ∈ found ->
          resume_training_entry full_base_path names k = Ok e ->
          dict_get k r = Some e)
    /\ (forall k, k ∉ found -> dict_get k r = dict_get k acc).
Proof.
  revert acc. induction found as [|k0 found IH]; intros acc Hnd Hfresh Hok.
  - exists acc. split; [done|]. split; [by rewrite app_nil_r|].
    split; [|done]. intros k e H. by apply elem_of_nil in H.
  - apply NoDup_cons in Hnd as [Hk0 Hnd].
    destruct (Hok k0) as [e0 He0]; [by left|].
    destruct (IH (dict_set k0 e0 acc)) as (r & Hr & Hkeys & Hin & Hout);
      [done| | |].
    + intros k Hk. rewrite dict_get_set_ne by (intros ->; done).
      apply Hfresh. by right.
    + intros k Hk. apply Hok. by right.
    + exists r. split; [simpl; by rewrite He0|]. split; [|split].
      * rewrite Hkeys, dict_set_fresh by (apply Hfresh; by left).
        unfold dict_keys. rewrite map_app. simpl. by rewrite <- app_assoc.
      * intros k e [->|Hk]%elem_of_cons He; [|by apply Hin].
        rewrite He0 in He. injection He as <-.
        rewrite Hout by done. apply dict_get_set_eq.
      * intros k [Hne Hk]%not_elem_of_cons.
        rewrite Hout by done. by apply dict_get_set_ne.
Qed.




Lemma get_all_resume_training_config_diffs_strings (s : fs)
    (config_folder : string) (split_scheme_name : scheme_arg)
    (num_training_sets : Z) (names : list string) :
  split_scheme_names split_scheme_name num_training_sets = map KeyStr names ->
  let full_base_path := path_join config_folder folder_base_name in
  let found := sorted (glob s (full_base_path +:+ "*")) in
  (forall k, k ∈ found -> exists epochs, folder_epochs full_base_path k = Ok epochs) ->
  exists r,
    get_all_resume_training_config_diffs s config_folder split_scheme_name
      num_training_sets = Ok r
    /\ dict_keys r = found
    /\ forall k epochs, k ∈ found ->
         folder_epochs full_base_path k = Ok epochs ->
         dict_get k r = Some (dict_of_items (zip names epochs)).
Proof.
  intros Hnames full_base_path found Hparse.
  unfold get_all_resume_training_config_diffs. rewrite Hnames.
  fold full_base_path. fold found.
  destruct (resume_training_loop_lookup full_base_path (map KeyStr names)
              found []) as (r & Hr & Hkeys & Hin & _).
  - unfold found. rewrite sorted_perm. apply glob_NoDup.
  - done.
  - intros k Hk. destruct (Hparse k Hk) as [epochs He].
    eexists. by apply resume_training_entry_strings.
  - exists r. split; [done|]. split; [done|].
    intros k epochs Hk He. apply Hin; [done|].
    by apply resume_training_entry_strings.
Qed.


Lemma resumed_folder_found :
  sorted (glob resumed_folder
            (path_join "cfg" "resume_training_config_diffs_" +:+ "*"))
  = ["cfg/resume_training_config_diffs_10_12";
     "cfg/resume_training_config_diffs_5_7"].
Proof. vm_compute. reflexivity. Defined.


(* ===================================================================== *)
(** * Further properties of the code *)
(* ===================================================================== *)

(** ** Directories and YAML files *)





(** ** A fresh run and the resume-diff folders *)

Lemma config_folder_not_diff_folder (config_folder : string)
    (latest_epochs : list Z) :
  config_folder <> path_join config_folder (resume_folder_name latest_epochs).
Proof.
  intros E. symmetry in E. revert E.
  rewrite path_join_sep by apply resume_folder_name_relative.
  apply app_not_self. rewrite resume_folder_name_cons.
  by destruct (sep_after config_folder).
Qed.

Lemma config_folder_not_diff_file (config_folder c : string)
    (latest_epochs : list Z) :
  has_char "/" c = false ->
  config_folder
  <> path_join (path_join config_folder (resume_folder_name latest_epochs))
       (c +:+ ".yaml").
Proof.
  intros Hc E. symmetry in E. revert E.
  rewrite (path_join_sep _ (c +:+ ".yaml")) by by apply yaml_name_relative.
  rewrite (path_join_sep _ (resume_folder_name _))
    by apply resume_folder_name_relative.
  rewrite !app_assoc_str. apply app_not_self.
  rewrite resume_folder_name_cons. by destruct (sep_after config_folder).
Qed.

Lemma save_config_file_fresh_keeps (config_folder p : string)
    (reproduce_results : bool) (latest_epochs : list Z)
    (kv : string * document) :
  (forall c, has_char "/" c = false ->
             p <> path_join config_folder (c +:+ ".yaml")) ->
  keeps p
    (save_config_file config_folder false reproduce_results latest_epochs kv).
Proof.
  intros Hp. destruct kv as [k v]. unfold save_config_file.
  apply keeps_bind_reading. intros _ category Hcat.
  apply config_category_name_no_slash in Hcat.
  change (negb false) with true. cbv iota.
  apply keeps_bind; [apply keeps_reading|]. intros is_file.
  apply keeps_bind.
  - destruct is_file; [|apply keeps_ret].
    apply keeps_bind; [apply keeps_reading|]. intros loaded.
    apply keeps_reading.
  - intros v'. apply keeps_write_yaml. by apply Hp.
Qed.

(** X3.  A run of [save_config_files] with [resume_training=False] leaves
    every resume-diff folder and every file in one as they are, whatever
    epochs the folder is named after: a fresh run neither creates, changes
    nor removes recorded diffs. *)
Theorem save_config_files_fresh_keeps_diffs
    (config_folder : string) (dict_of_yamls : dict document)
    (reproduce_results : bool) (latest_epochs epochs : list Z) (c : string)
    (s : fs) :
  has_char "/" c = false ->
  let s1 := (save_config_files config_folder dict_of_yamls false
               reproduce_results latest_epochs s).1 in
  let diff_folder := path_join config_folder (resume_folder_name epochs) in
  s1 !! diff_folder = s !! diff_folder
  /\ s1 !! path_join diff_folder (c +:+ ".yaml")
     = s !! path_join diff_folder (c +:+ ".yaml").
Proof.
  intros Hc s1 diff_folder.
  assert (forall p,
            p <> config_folder ->
            (forall c', has_char "/" c' = false ->
                        p <> path_join config_folder (c' +:+ ".yaml")) ->
            keeps p (save_config_files config_folder dict_of_yamls false
                       reproduce_results latest_epochs)) as Hkeeps.
  { intros p Hp1 Hp2. unfold save_config_files. apply keeps_bind.
    - by apply keeps_makedir_if_not_there.
    - intros _. apply keeps_for_each. intros kv _.
      by apply save_config_file_fresh_keeps. }
  split; apply Hkeeps.
  - intros E. symmetry in E. by apply config_folder_not_diff_folder in E.
  - intros c' Hc'. by apply diff_folder_not_category_file.
  - intros E. symmetry in E. by apply config_folder_not_diff_file in E.
  - intros c' Hc'. by apply diff_file_not_category_file.
Qed.

Lemma save_config_files_fresh_keeps_diffs_witness :
  has_char "/" "config_general" = false
  /\ (save_config_files "cfg" [(example_key, example_document)] false false
        [] resumed_folder).1
       !! path_join "cfg" (resume_folder_name [5; 7])
     = resumed_folder !! path_join "cfg" (resume_folder_name [5; 7]).
Proof.
  split; [reflexivity|].
  exact (proj1 (save_config_files_fresh_keeps_diffs "cfg"
                  [(example_key, example_document)] false [] [5; 7]
                  "config_general" resumed_folder eq_refl)).
Defined.

(** X4.  The category of a document never holds a path separator, so the
    category file is an entry of the configuration folder itself: its path
    is the folder, a separator unless the folder is empty or ends with one,
    the category and [.yaml]. *)
Theorem config_category_file_in_folder (config_folder k category : string) :
  config_category_name k = Ok category ->
  has_char "/" category = false
  /\ path_join config_folder (category +:+ ".yaml")
     = config_folder
       +:+ (if String.eqb config_folder "" || endswith config_folder "/"
            then "" else "/")
       +:+ category +:+ ".yaml".
Proof.
  intros Hcat. pose proof (config_category_name_no_slash _ _ Hcat) as Hc.
  split; [done|].
  rewrite path_join_sep by by apply yaml_name_relative. done.
Qed.

Lemma config_category_file_in_folder_witness :
  config_category_name "../configs/config_general/../default.yaml" = Ok "default"
  /\ path_join "cfg" ("default" +:+ ".yaml") = "cfg/default.yaml".
Proof.
  split; [reflexivity|].
  exact (proj2 (config_category_file_in_folder "cfg"
                  "../configs/config_general/../default.yaml" "default"
                  eq_refl)).
Defined.

(** ** A resume run right after a fresh run *)

(** Induction on document values, through lists and mappings. *)
Lemma yaml_nested_ind (P : yaml -> Prop) :
  P YNone -> (forall b, P (YBool b)) -> (forall z, P (YInt z)) ->
  (forall n d, P (YFloat n d)) -> (forall s, P (YStr s)) ->
  (forall l, Forall P l -> P (YList l)) ->
  (forall d, Forall (fun kv => P kv.2) d -> P (YDict d)) ->
  forall v, P v.
Proof.
  intros HNone HBool HInt HFloat HStr HList HDict.
  exact (fix F (v : yaml) : P v :=
           match v with
           | YNone => HNone
           | YBool b => HBool b
           | YInt z => HInt z
           | YFloat n d => HFloat n d
           | YStr s => HStr s
           | YList l =>
               HList l
                 ((fix G (l : list yaml) : Forall P l :=
                     match l with
                     | [] => List.Forall_nil P
                     | x :: l' => @List.Forall_cons _ P x l' (F x) (G l')
                     end) l)
           | YDict d =>
               HDict d
                 ((fix G (d : list (string * yaml))
                     : Forall (fun kv => P kv.2) d :=
                     match d with
                     | [] => List.Forall_nil _
                     | (k, x) :: d' =>
                         @List.Forall_cons _ (fun kv => P kv.2) (k, x) d'
                           (F x) (G d')
                     end) d)
           end).
Qed.

(** A value that Python can hold is equal to itself. *)
Lemma py_eq_refl (v : yaml) : wf_yaml v -> py_eq v v = true.
Proof.
  induction v as [| b | z | n d | s | l IH | d IH] using yaml_nested_ind;
    intros Hwf.
  - done.
  - simpl. unfold frac_eqb. apply Z.eqb_refl.
  - simpl. unfold frac_eqb. apply Z.eqb_refl.
  - simpl. unfold frac_eqb. apply Z.eqb_refl.
  - simpl. apply String.eqb_refl.
  - inversion Hwf as [| | | | | l' Hl |]; subst. simpl.
    induction l as [|x l IHl]; [done|].
    apply Forall_cons_1 in IH as [Hx IH]. apply Forall_cons_1 in Hl as [Hwx Hl].
    rewrite (Hx Hwx). simpl. apply IHl; [done | by constructor | done].
  - inversion Hwf as [| | | | | | d' Hnd Hd]; subst.
    cbn [py_eq]. rewrite Nat.eqb_refl. simpl.
    assert (forall d1,
              (forall kv, kv ∈ d1 -> kv ∈ d) ->
              (fix go (d1 : list (string * yaml)) : bool :=
                 match d1 with
                 | [] => true
                 | (k, v) :: d1' =>
                     match dict_get k d with
                     | Some w => py_eq v w
                     | None => false
                     end && go d1'
                 end) d1 = true) as Hgo.
    { induction d1 as [|[k v] d1 IHd1]; intros Hsub; [done|].
      assert ((k, v) ∈ d) as Hin by (apply Hsub; by left).
      rewrite (dict_get_elem k v d Hnd Hin).
      rewrite Forall_forall in IH, Hd.
      pose proof (IH (k, v) Hin (Hd (k, v) Hin)) as Hv. simpl in Hv.
      rewrite Hv. simpl. apply IHd1. intros kv Hkv. apply Hsub. by right. }
    by apply Hgo.
Qed.

Lemma save_config_file_resume_run
    (config_folder k : string) (v : document) (reproduce_results : bool)
    (latest_epochs : list Z) (s : fs) (category : string) (curr : document) :
  config_category_name k = Ok category ->
  load_yaml s (path_join config_folder (category +:+ ".yaml")) = Ok (Some curr) ->
  NoDup (dict_keys v) ->
  filter (fun kv => differs curr kv = true) v = [] ->
  save_config_file config_folder true reproduce_results latest_epochs (k, v) s
  = (s, Ok tt).
Proof.
  intros Hcat Hload Hnd Hdiff. unfold save_config_file.
  rewrite st_bind_run. unfold reading at 1.
  rewrite Hcat. change (negb true) with false. cbv beta iota.
  rewrite st_bind_run. unfold reading at 1. rewrite Hload. cbv beta iota.
  rewrite st_bind_run. unfold reading at 1.
  rewrite yaml_diff_loop_filter by (done || by intros).
  by rewrite app_nil_l, Hdiff.
Qed.

(** X5.  When a fresh run has written a document whose category had no
    file, a resume run with the same document (distinct keys, values that
    Python can hold) finds no difference: it returns and leaves the file
    system as it is, whatever the epochs and whatever [reproduce_results]. *)
Theorem save_config_file_resume_after_fresh
    (config_folder k : string) (v : document) (reproduce_results rr : bool)
    (latest_epochs epochs : list Z) (s : fs) (category : string) :
  config_category_name k = Ok category ->
  s !! path_join config_folder (category +:+ ".yaml") = None ->
  NoDup (dict_keys v) ->
  (forall key val, (key, val) ∈ v -> wf_yaml val) ->
  let s1 := (save_config_file config_folder false reproduce_results
               latest_epochs (k, v) s).1 in
  save_config_file config_folder true rr epochs (k, v) s1 = (s1, Ok tt).
Proof.
  intros Hcat Hnone Hnd Hwf s1. unfold s1.
  rewrite (save_config_file_fresh_new config_folder k v reproduce_results
             latest_epochs s category) by done.
  simpl. apply (save_config_file_resume_run config_folder k v rr epochs _
                  category v); [done | | done |].
  - unfold load_yaml, read_file. by rewrite lookup_insert_eq.
  - apply filter_none. intros [k2 v2] Hin. unfold differs. simpl.
    rewrite (dict_get_elem k2 v2 v Hnd Hin). unfold py_ne.
    rewrite py_eq_refl by by eapply Hwf. done.
Qed.

Lemma nested_document_wf :
  forall key val, (key, val) ∈ nested_document -> wf_yaml val.
Proof.
  intros key val Hin. unfold nested_document in Hin.
  apply elem_of_cons in Hin as [[= -> ->]|Hin]; [constructor|].
  apply list_elem_of_singleton in Hin as [= -> ->].
  constructor; [apply NoDup_singleton|].
  constructor; [constructor | constructor].
Defined.

Lemma save_config_file_resume_after_fresh_witness :
  config_category_name example_key = Ok "config_general"
  /\ ({["cfg" := Dir]} : fs) !! path_join "cfg" ("config_general" +:+ ".yaml")
     = None
  /\ NoDup (dict_keys nested_document)
  /\ save_config_file "cfg" true false [5; 5] (example_key, nested_document)
       (save_config_file "cfg" false false [] (example_key, nested_document)
          {["cfg" := Dir]}).1
     = ((save_config_file "cfg" false false [] (example_key, nested_document)
           {["cfg" := Dir]}).1, Ok tt).
Proof.
  assert (NoDup (dict_keys nested_document)) as Hnd.
  { apply (bool_decide_unpack _). vm_compute. exact I. }
  split; [reflexivity|]. split; [reflexivity|]. split; [exact Hnd|].
  exact (save_config_file_resume_after_fresh "cfg" example_key nested_document
           false false [] [5; 5] {["cfg" := Dir]} "config_general"
           eq_refl eq_refl Hnd nested_document_wf).
Defined.

(** ** Checkpoint file names and the latest version *)



















(** ** Deleting, failing and unwrapping in the checkpoint store *)

Lemma for_each_app {S A} (l1 l2 : list A) (body : A -> st S unit) (s : S) :
  for_each (l1 ++ l2) body s
  = match for_each l1 body s with
    | (s', Ok _) => for_each l2 body s'
    | (s', Raise e) => (s', Raise e)
    end.
Proof.
  revert s. induction l1 as [|x l1 IH]; intros s; [done|].
  simpl. rewrite !st_bind_run.
  destruct (body x s) as [s' [[]|e]]; [apply IH | done].
Qed.

Lemma for_each_remove {W} (h : handler W) (paths : list string) (w : world W) :
  exists t,
    for_each paths
      (fun p => try_except (perform h (os_remove p)) any_exception
                  (fun _ => mret tt)) w
    = ({| ext := ext (for_each paths
                        (fun p => try_except (perform h (os_remove p))
                                    any_exception (fun _ => mret tt)) w).1;
          trace := trace w ++ t |}, Ok tt)
    /\ Forall2 (fun p e => exists r, e = Event (os_remove p) r) paths t.
Proof.
  revert w. induction paths as [|p paths IH]; intros w.
  - exists []. simpl. rewrite app_nil_r. split; [by destruct w | constructor].
  - simpl. rewrite st_bind_run. unfold try_except at 1 3.
    rewrite perform_run.
    set (w1 := {| ext := (h unit (os_remove p) (ext w)).1;
                  trace := trace w ++ [Event (os_remove p)
                                         (h unit (os_remove p) (ext w)).2] |}).
    assert (forall r : result unit,
              match r with
              | Ok a => (w1, Ok a)
              | Raise e => if any_exception e then (w1, Ok tt) else (w1, Raise e)
              end = (w1, Ok tt)) as Hr by (by intros [[]|e]).
    rewrite Hr. destruct (IH w1) as (t & Ht & Hall).
    exists (Event (os_remove p) (h unit (os_remove p) (ext w)).2 :: t).
    rewrite Ht. simpl. rewrite <- app_assoc. split; [done|].
    constructor; [by eexists | done].
Qed.

(** X8.  For a mapping in which every object whose name lacks "optimizer"
    has a parameter list, [delete_dict_of_models] never raises, whatever the
    runtime answers to the removals: it asks for the removal of the file of
    every qualifying entry, once each and in the order of the mapping, and
    makes no other call. *)
Theorem delete_dict_of_models_never_raises {W} (h : handler W)
    (input_dict : dict object) (suffix : option identifier) (folder : string)
    (w : world W) :
  (forall k v, (k, v) ∈ input_dict -> contains k "optimizer" = false ->
               is_Some (parameters v)) ->
  (delete_dict_of_models h input_dict suffix folder w).2 = Ok tt
  /\ exists t,
       trace (delete_dict_of_models h input_dict suffix folder w).1
       = trace w ++ t
       /\ Forall2
            (fun kv e =>
               exists r,
                 e = Event (os_remove (experiment_filename folder kv.1 suffix
                                         ".pth")) r)
            (filter (fun kv => operable kv = true) input_dict) t.
Proof.
  intros Hexp. unfold delete_dict_of_models.
  rewrite operate_on_dict_of_models_filter by done.
  set (entries := filter (fun kv => operable kv = true) input_dict).
  assert (forall w',
            for_each entries
              (fun kv =>
                 _ ← (if negb (String.eqb "" "") then
                        perform h (logging_info
                          ("" +:+ " " +:+ experiment_filename folder kv.1
                                            suffix ".pth"))
                      else mret tt);
                 try_except
                   (perform h (os_remove (experiment_filename folder kv.1
                                            suffix ".pth")))
                   any_exception (fun _ => mret tt)) w'
            = for_each
                (map (fun kv => experiment_filename folder kv.1 suffix ".pth")
                   entries)
                (fun p => try_except (perform h (os_remove p)) any_exception
                            (fun _ => mret tt)) w') as Hmap.
  { induction entries as [|kv entries IH]; intros w'; [done|].
    simpl. rewrite !st_bind_run. simpl.
    destruct (try_except _ _ _ w') as [w'' [[]|e]]; [apply IH | done]. }
  rewrite Hmap.
  destruct (for_each_remove h
              (map (fun kv => experiment_filename folder kv.1 suffix ".pth")
                 entries) w) as (t & Ht & Hall).
  rewrite Ht. simpl. split; [done|]. exists t. split; [done|].
  by apply Forall2_fmap_l in Hall.
Qed.

Lemma delete_dict_of_models_never_raises_witness :
  (forall k v, (k, v) ∈ example_models -> contains k "optimizer" = false ->
               is_Some (parameters v))
  /\ (delete_dict_of_models example_runtime example_models (Some (IdInt 5))
        "models" empty_world).2 = Ok tt.
Proof.
  assert (forall k v, (k, v) ∈ example_models ->
            contains k "optimizer" = false -> is_Some (parameters v)) as Hexp.
  { intros k v Hin Hk. unfold example_models in Hin.
    apply elem_of_cons in Hin as [[= -> ->]|Hin]; [by exists [Tensor 10]|].
    apply elem_of_cons in Hin as [[= -> ->]|Hin]; [by exists []|].
    apply elem_of_cons in Hin as [[= -> ->]|Hin]; [discriminate Hk|].
    by apply elem_of_nil in Hin. }
  split; [exact Hexp|].
  exact (proj1 (delete_dict_of_models_never_raises example_runtime
                  example_models (Some (IdInt 5)) "models" empty_world Hexp)).
Defined.

(** X9.  An entry whose name lacks "optimizer" and whose object has no
    parameter method stops [operate_on_dict_of_models]: the entries before
    it are processed as usual, then AttributeError is raised; the operation
    is run neither on that entry nor on any later one. *)
Theorem operate_on_dict_of_models_no_parameters {W} (h : handler W)
    (before after : dict object) (k : string) (v : object)
    (suffix : option identifier) (folder : string)
    (operation : string -> object -> string -> st (world W) unit)
    (logging_string : string) (w : world W) :
  contains k "optimizer" = false ->
  parameters v = None ->
  operate_on_dict_of_models h (before ++ (k, v) :: after) suffix folder
    operation logging_string w
  = match operate_on_dict_of_models h before suffix folder operation
            logging_string w with
    | (w', Ok _) => (w', Raise AttributeError)
    | (w', Raise e) => (w', Raise e)
    end.
Proof.
  intros Hk Hv. unfold operate_on_dict_of_models. rewrite for_each_app.
  destruct (for_each before _ w) as [w' [[]|e]]; [|done].
  simpl. rewrite Hk. rewrite !st_bind_run.
  unfold reading, count_parameters. by rewrite Hv.
Qed.

Lemma operate_on_dict_of_models_no_parameters_witness :
  contains "sampler" "optimizer" = false
  /\ parameters {| object_id := 4; parameters := None |} = None
  /\ save_dict_of_models example_runtime
       ([("trunk", {| object_id := 1; parameters := Some [Tensor 10] |})]
        ++ ("sampler", {| object_id := 4; parameters := None |})
           :: [("trunk_optimizer", {| object_id := 3; parameters := None |})])
       None "models" empty_world
     = ((save_dict_of_models example_runtime
           [("trunk", {| object_id := 1; parameters := Some [Tensor 10] |})]
           None "models" empty_world).1, Raise AttributeError).
Proof.
  split; [reflexivity|]. split; [reflexivity|].
  unfold save_dict_of_models.
  rewrite (operate_on_dict_of_models_no_parameters example_runtime
             [("trunk", {| object_id := 1; parameters := Some [Tensor 10] |})]
             [("trunk_optimizer", {| object_id := 3; parameters := None |})]
             "sampler" {| object_id := 4; parameters := None |}
             None "models" _ "" empty_world eq_refl eq_refl).
  reflexivity.
Defined.

Lemma dict_of_items_fresh {V} (items : list (string * V)) (acc : dict V) :
  NoDup (dict_keys acc ++ map fst items) ->
  fold_left (fun d kv => dict_set kv.1 kv.2 d) items acc = acc ++ items.
Proof.
  revert acc. induction items as [|[k v] items IH]; intros acc Hnd.
  - by rewrite app_nil_r.
  - simpl. rewrite dict_set_fresh.
    + rewrite IH; [by rewrite <- app_assoc|].
      unfold dict_keys. rewrite map_app. simpl. by rewrite <- app_assoc.
    + apply dict_get_None. simpl in Hnd.
      apply NoDup_app in Hnd as (_ & Hdis & _).
      intros Hin. apply (Hdis k Hin). by left.
Qed.

(** X10.  A state whose keys are distinct and all carry the seven
    characters [module.] in front comes out of the key stripping with the
    bare keys, the same values and the same order. *)
Theorem strip_module_prefix_unwraps (state : state_dict) :
  NoDup (dict_keys state) ->
  strip_module_prefix (map (fun kv => ("module." +:+ kv.1, kv.2)) state)
  = state.
Proof.
  intros Hnd. unfold strip_module_prefix, dict_of_items.
  assert (map (fun kv : string * tensor => (drop_str 7 kv.1, kv.2))
            (map (fun kv : string * tensor => ("module." +:+ kv.1, kv.2)) state)
          = state) as ->.
  { clear Hnd. induction state as [|[k v] state IH]; [done|].
    cbn [map]. rewrite IH. reflexivity. }
  by rewrite dict_of_items_fresh.
Qed.

Lemma strip_module_prefix_unwraps_witness :
  NoDup (dict_keys [("fc.weight", Tensor 1); ("fc.bias", Tensor 2)])
  /\ strip_module_prefix
       [("module.fc.weight", Tensor 1); ("module.fc.bias", Tensor 2)]
     = [("fc.weight", Tensor 1); ("fc.bias", Tensor 2)].
Proof.
  assert (NoDup (dict_keys [("fc.weight", Tensor 1); ("fc.bias", Tensor 2)]))
    as Hnd.
  { apply (bool_decide_unpack _). vm_compute. exact I. }
  split; [exact Hnd|].
  exact (strip_module_prefix_unwraps
           [("fc.weight", Tensor 1); ("fc.bias", Tensor 2)] Hnd).
Defined.

(** ** The final linear layer *)

Lemma get_last_linear_name (input_model : model_attrs) (l : layer)
    (name : string) :
  get_last_linear input_model true = LayerAndName l name ->
  getattr_or_none input_model name = Some l
  /\ layer_truthy l = true
  /\ (name = "fc"
      \/ name = "last_linear" /\ truthy_attr input_model "fc" = false).
Proof.
  unfold get_last_linear, truthy_attr. simpl.
  destruct (getattr_or_none input_model "fc") as [f|] eqn:Ef.
  - destruct (layer_truthy f) eqn:Hf.
    + intros [= <- <-]. split; [done|]. split; [done | by left].
    + destruct (getattr_or_none input_model "last_linear") as [g|] eqn:Eg;
        [|done].
      destruct (layer_truthy g) eqn:Hg; [|done].
      intros [= <- <-]. split; [done|]. split; [done | by right].
  - destruct (getattr_or_none input_model "last_linear") as [g|] eqn:Eg;
      [|done].
    destruct (layer_truthy g) eqn:Hg; [|done].
    intros [= <- <-]. split; [done|]. split; [done | by right].
Qed.

Lemma getattr_or_none_set_eq (input_model : model_attrs) (name : string)
    (a : option layer) :
  getattr_or_none (dict_set name a input_model) name = a.
Proof. unfold getattr_or_none. by rewrite dict_get_set_eq. Qed.

Lemma getattr_or_none_set_ne (input_model : model_attrs) (name other : string)
    (a : option layer) :
  other <> name ->
  getattr_or_none (dict_set name a input_model) other
  = getattr_or_none input_model other.
Proof. intros H. unfold getattr_or_none. by rewrite dict_get_set_ne. Qed.

(** X11.  When [get_last_linear] finds the final layer under some name,
    [set_last_linear] with a layer that is true returns, afterwards
    [get_last_linear] finds the new layer under the same name, and every
    other attribute of the model is as before. *)
Theorem set_last_linear_then_get (input_model : model_attrs) (l new : layer)
    (name : string) :
  get_last_linear input_model true = LayerAndName l name ->
  layer_truthy new = true ->
  exists model',
    set_last_linear input_model (Some new) = Ok model'
    /\ get_last_linear model' true = LayerAndName new name
    /\ get_last_linear model' false = TheLayer new
    /\ dict_keys model' = dict_keys input_model
    /\ forall other, other <> name ->
         dict_get other model' = dict_get other input_model.
Proof.
  intros Hget Hnew.
  destruct (get_last_linear_name _ _ _ Hget) as (Hattr & Hl & Hname).
  exists (dict_set name (Some new) input_model).
  split; [unfold set_last_linear; by rewrite Hget|].
  assert (forall rn,
            get_last_linear (dict_set name (Some new) input_model) rn
            = if rn then LayerAndName new name else TheLayer new) as Hafter.
  { intros rn. unfold get_last_linear. simpl.
    destruct Hname as [-> | [-> Hfc]].
    - by rewrite getattr_or_none_set_eq, Hnew.
    - rewrite getattr_or_none_set_ne by done.
      unfold truthy_attr in Hfc.
      destruct (getattr_or_none input_model "fc") as [f|].
      + rewrite Hfc. by rewrite getattr_or_none_set_eq, Hnew.
      + by rewrite getattr_or_none_set_eq, Hnew. }
  split; [apply (Hafter true)|]. split; [apply (Hafter false)|]. split.
  - apply dict_keys_set_mem. unfold getattr_or_none in Hattr.
    destruct (dict_get name input_model); [by eexists | done].
  - intros other Hother. by apply dict_get_set_ne.
Qed.

Lemma set_last_linear_then_get_witness :
  get_last_linear example_model true
  = LayerAndName {| layer_id := 2; layer_truthy := true |} "last_linear"
  /\ layer_truthy {| layer_id := 9; layer_truthy := true |} = true
  /\ exists model',
       set_last_linear example_model
         (Some {| layer_id := 9; layer_truthy := true |}) = Ok model'
       /\ get_last_linear model' true
          = LayerAndName {| layer_id := 9; layer_truthy := true |} "last_linear".
Proof.
  split; [reflexivity|]. split; [reflexivity|].
  destruct (set_last_linear_then_get example_model
              {| layer_id := 2; layer_truthy := true |}
              {| layer_id := 9; layer_truthy := true |} "last_linear"
              eq_refl eq_refl) as (model' & H1 & H2 & _).
  exists model'. by split.
Defined.

(** X12.  When neither [fc] nor [last_linear] is bound to something true
    (absent, [None], or a layer that is false), [get_last_linear] returns
    [None] with or without the name, and [set_last_linear] raises TypeError
    and assigns nothing. *)
Theorem last_linear_missing (input_model : model_attrs) (return_name : bool)
    (set_to : option layer) :
  truthy_attr input_model "fc" = false ->
  truthy_attr input_model "last_linear" = false ->
  get_last_linear input_model return_name = NoLayer
  /\ set_last_linear input_model set_to = Raise TypeError.
Proof.
  unfold truthy_attr. intros Hfc Hll.
  assert (forall rn, get_last_linear input_model rn = NoLayer) as Hget.
  { intros rn. unfold get_last_linear. simpl.
    destruct (getattr_or_none input_model "fc") as [f|];
      destruct (getattr_or_none input_model "last_linear") as [g|];
      rewrite ?Hfc, ?Hll; done. }
  split; [apply Hget|]. unfold set_last_linear. by rewrite Hget.
Qed.

Lemma last_linear_missing_witness :
  truthy_attr [("fc", Some {| layer_id := 1; layer_truthy := false |});
               ("last_linear", None)] "fc" = false
  /\ truthy_attr [("fc", Some {| layer_id := 1; layer_truthy := false |});
                  ("last_linear", None)] "last_linear" = false
  /\ set_last_linear [("fc", Some {| layer_id := 1; layer_truthy := false |});
                      ("last_linear", None)]
       (Some {| layer_id := 9; layer_truthy := true |})
     = Raise TypeError.
Proof.
  split; [reflexivity|]. split; [reflexivity|].
  exact (proj2 (last_linear_missing
                  [("fc", Some {| layer_id := 1; layer_truthy := false |});
                   ("last_linear", None)] true
                  (Some {| layer_id := 9; layer_truthy := true |})
                  eq_refl eq_refl)).
Defined.

(** ** Discovery of the resume-diff folders: failures and truncation *)

Lemma int_or_raise_error (x : string) (e : exn) :
  int_or_raise x = Raise e -> e = ValueError.
Proof. unfold int_or_raise. destruct (py_int x); [done | by intros [= <-]]. Qed.

Lemma map_result_error {A B} (f : A -> result B) (l : list A) (err : exn) :
  (forall x e, f x = Raise e -> e = err) ->
  forall e, map_result f l = Raise e -> e = err.
Proof.
  intros Hf. induction l as [|x l IH]; intros e; [done|].
  simpl. destruct (f x) as [y|e'] eqn:Ex; simpl.
  - destruct (map_result f l) as [ys|e'']; simpl; [done|].
    intros [= <-]. by apply IH.
  - intros [= <-]. by eapply Hf.
Qed.

Lemma map_result_raises {A B} (f : A -> result B) (l : list A) (err : exn) :
  (forall x e, f x = Raise e -> e = err) ->
  (exists x e, x ∈ l /\ f x = Raise e) ->
  map_result f l = Raise err.
Proof.
  intros Hf (x & e & Hin & Hx).
  destruct (map_result f l) as [ys|e'] eqn:E.
  - exfalso. revert ys E. induction l as [|y l IH]; intros ys E.
    + by apply elem_of_nil in Hin.
    + simpl in E. apply elem_of_cons in Hin as [->|Hin].
      * by rewrite Hx in E.
      * destruct (f y); simpl in E; [|done].
        destruct (map_result f l) as [ys'|]; simpl in E; [|done].
        by apply (IH Hin ys').
  - f_equal. by apply (map_result_error f l err Hf).
Qed.

Lemma folder_epochs_error (full_base_path k : string) (e : exn) :
  folder_epochs full_base_path k = Raise e -> e = ValueError.
Proof. apply map_result_error. apply int_or_raise_error. Qed.

Lemma map_result_length {A B} (f : A -> result B) (l : list A) (ys : list B) :
  map_result f l = Ok ys -> length ys = length l.
Proof.
  revert ys. induction l as [|x l IH]; intros ys; simpl.
  - by intros [= <-].
  - destruct (f x); simpl; [|done].
    destruct (map_result f l) as [ys'|]; simpl; [|done].
    intros [= <-]. simpl. by rewrite (IH ys').
Qed.

Lemma folder_epochs_not_empty (full_base_path k : string) (epochs : list Z) :
  folder_epochs full_base_path k = Ok epochs -> epochs <> [].
Proof.
  intros H%map_result_length ->.
  pose proof (split_not_nil "_" (remove_all k full_base_path)) as Hne.
  destruct (split "_" (remove_all k full_base_path)); [done | simpl in H; lia].
Qed.

(** With string names, the loop over the found folders raises ValueError
    as soon as one folder name does not parse. *)
Lemma resume_training_loop_raises (full_base_path : string)
    (names : list string) (found : list string) (acc : dict (dict Z)) :
  (exists k e, k ∈ found /\ folder_epochs full_base_path k = Raise e) ->
  resume_training_loop full_base_path (map KeyStr names) found acc
  = Raise ValueError.
Proof.
  revert acc. induction found as [|k0 found IH]; intros acc (k & e & Hin & Hk).
  - by apply elem_of_nil in Hin.
  - simpl. unfold resume_training_entry at 1.
    change (map_result int_or_raise (split "_" (remove_all k0 full_base_path)))
      with (folder_epochs full_base_path k0).
    destruct (folder_epochs full_base_path k0) as [epochs|e0] eqn:E0; simpl.
    + rewrite scheme_epoch_dict_strings. simpl.
      apply IH. apply elem_of_cons in Hin as [->|Hin]; [congruence|].
      by exists k, e.
    + by rewrite (folder_epochs_error _ _ _ E0).
Qed.

(** X13.  One folder whose name does not split into integers poisons the
    discovery: when the names are strings and some found folder fails to
    parse, [get_all_resume_training_config_diffs] raises ValueError and
    returns nothing, even for the folders that do parse. *)
Theorem get_all_resume_training_config_diffs_bad_folder
    (s : fs) (config_folder : string) (split_scheme_name : scheme_arg)
    (num_training_sets : Z) (names : list string) (k : string) (e : exn) :
  split_scheme_names split_scheme_name num_training_sets = map KeyStr names ->
  let full_base_path := path_join config_folder "resume_training_config_diffs_" in
  k ∈ glob s (full_base_path +:+ "*") ->
  folder_epochs full_base_path k = Raise e ->
  get_all_resume_training_config_diffs s config_folder split_scheme_name
    num_training_sets = Raise ValueError.
Proof.
  intros Hnames full_base_path Hk He.
  unfold get_all_resume_training_config_diffs. rewrite Hnames.
  apply resume_training_loop_raises. exists k, e. split; [|done].
  by rewrite sorted_perm.
Qed.

Lemma get_all_resume_training_config_diffs_bad_folder_witness :
  split_scheme_names (SchemeName "train") 1 = map KeyStr ["train"]
  /\ "cfg/resume_training_config_diffs_backup"
       ∈ glob foreign_folder
           (path_join "cfg" "resume_training_config_diffs_" +:+ "*")
  /\ folder_epochs (path_join "cfg" "resume_training_config_diffs_")
       "cfg/resume_training_config_diffs_backup" = Raise ValueError
  /\ get_all_resume_training_config_diffs foreign_folder "cfg"
       (SchemeName "train") 1 = Raise ValueError.
Proof.
  assert ("cfg/resume_training_config_diffs_backup"
            ∈ glob foreign_folder
                (path_join "cfg" "resume_training_config_diffs_" +:+ "*"))
    as Hin.
  { apply glob_elem. split; [by eexists | reflexivity]. }
  split; [reflexivity|]. split; [exact Hin|]. split; [reflexivity|].
  exact (get_all_resume_training_config_diffs_bad_folder foreign_folder "cfg"
           (SchemeName "train") 1 ["train"]
           "cfg/resume_training_config_diffs_backup" ValueError
           eq_refl Hin eq_refl).
Defined.



(** X15.  With a list of prefixes and at most one training set, the list
    itself is taken as the single name: the call returns the empty
    dictionary when no folder is found, and raises TypeError (a list cannot
    be a dictionary key) as soon as a folder is found whose name parses. *)
Theorem get_all_resume_training_config_diffs_list_as_name
    (s : fs) (config_folder : string) (prefixes : list string)
    (num_training_sets : Z) :
  num_training_sets <= 1 ->
  let full_base_path := path_join config_folder "resume_training_config_diffs_" in
  let found := sorted (glob s (full_base_path +:+ "*")) in
  (found = [] ->
   get_all_resume_training_config_diffs s config_folder
     (SchemePrefixes prefixes) num_training_sets = Ok [])
  /\ (forall k rest epochs,
        found = k :: rest ->
        folder_epochs full_base_path k = Ok epochs ->
        get_all_resume_training_config_diffs s config_folder
          (SchemePrefixes prefixes) num_training_sets = Raise TypeError).
Proof.
  intros Hn full_base_path found.
  assert (split_scheme_names (SchemePrefixes prefixes) num_training_sets
          = [KeyList prefixes]) as Hnames.
  { unfold split_scheme_names.
    by destruct (Z.ltb_spec 1 num_training_sets); [lia|]. }
  unfold get_all_resume_training_config_diffs. rewrite Hnames.
  change (path_join config_folder folder_base_name) with full_base_path.
  change (sorted (glob s (full_base_path +:+ "*"))) with found. split.
  - intros E. by rewrite E.
  - intros k rest epochs E Hk. rewrite E. simpl. unfold resume_training_entry.
    change (map_result int_or_raise (split "_" (remove_all k full_base_path)))
      with (folder_epochs full_base_path k).
    rewrite Hk. simpl.
    pose proof (folder_epochs_not_empty _ _ _ Hk). by destruct epochs.
Qed.

Lemma get_all_resume_training_config_diffs_list_as_name_witness :
  1 <= 1
  /\ get_all_resume_training_config_diffs resumed_folder "cfg"
       (SchemePrefixes ["train"]) 1 = Raise TypeError
  /\ get_all_resume_training_config_diffs example_folder "cfg"
       (SchemePrefixes ["train"]) 1 = Ok [].
Proof.
  split; [lia|].
  destruct (get_all_resume_training_config_diffs_list_as_name resumed_folder
              "cfg" ["train"] 1 ltac:(lia)) as [_ H1].
  destruct (get_all_resume_training_config_diffs_list_as_name example_folder
              "cfg" ["train"] 1 ltac:(lia)) as [H2 _].
  split.
  - apply (H1 "cfg/resume_training_config_diffs_10_12"
              ["cfg/resume_training_config_diffs_5_7"] [10; 12]).
    + exact resumed_folder_found.
    + vm_compute. reflexivity.
  - apply H2. vm_compute. reflexivity.
Defined.

Lemma zip_keys_NoDup {A} (names : list string) (xs : list A) :
  NoDup names -> NoDup (map fst (zip names xs)).
Proof.
  intros Hnd. revert xs. induction Hnd as [|name names Hname Hnd IH];
    intros [|x xs]; simpl; try constructor.
  - intros Hin. apply Hname.
    apply list_elem_of_fmap in Hin as ([n y] & -> & Hin).
    by apply elem_of_zip_l in Hin.
  - apply IH.
Qed.

(** X16.  With pairwise distinct string names and folder names that all
    parse, the entry of a found folder pairs names and integers position
    by position and stops at the shorter of the two: surplus integers of a
    folder name are dropped and surplus names stay unbound. *)
Theorem get_all_resume_training_config_diffs_truncates
    (s : fs) (config_folder : string) (split_scheme_name : scheme_arg)
    (num_training_sets : Z) (names : list string) :
  split_scheme_names split_scheme_name num_training_sets = map KeyStr names ->
  NoDup names ->
  let full_base_path := path_join config_folder "resume_training_config_diffs_" in
  let found := sorted (glob s (full_base_path +:+ "*")) in
  (forall k, k ∈ found ->
     exists epochs, folder_epochs full_base_path k = Ok epochs) ->
  exists r,
    get_all_resume_training_config_diffs s config_folder split_scheme_name
      num_training_sets = Ok r
    /\ forall k epochs, k ∈ found ->
         folder_epochs full_base_path k = Ok epochs ->
         dict_get k r = Some (zip names epochs)
         /\ length (zip names epochs) = min (length names) (length epochs).
Proof.
  intros Hnames Hnd full_base_path found Hparse.
  destruct (get_all_resume_training_config_diffs_strings s config_folder
              split_scheme_name num_training_sets names Hnames Hparse)
    as (r & Hr & _ & Hlook).
  exists r. split; [done|]. intros k epochs Hk He.
  rewrite (Hlook k epochs Hk He). split; [|apply length_zip].
  f_equal. unfold dict_of_items.
  rewrite dict_of_items_fresh; [done|]. simpl. by apply zip_keys_NoDup.
Qed.

Lemma get_all_resume_training_config_diffs_truncates_witness :
  split_scheme_names (SchemeName "train") 1 = map KeyStr ["train"]
  /\ NoDup ["train"]
  /\ exists r,
       get_all_resume_training_config_diffs resumed_folder "cfg"
         (SchemeName "train") 1 = Ok r
       /\ dict_get "cfg/resume_training_config_diffs_5_7" r
          = Some [("train", 5)].
Proof.
  assert (NoDup ["train"]) as Hnd by apply NoDup_singleton.
  split; [reflexivity|]. split; [exact Hnd|].
  destruct (get_all_resume_training_config_diffs_truncates resumed_folder "cfg"
              (SchemeName "train") 1 ["train"] eq_refl Hnd)
    as (r & Hr & Hlook).
  - rewrite resumed_folder_found. intros k Hk.
    apply elem_of_cons in Hk as [->|Hk].
    + exists [10; 12]. vm_compute. reflexivity.
    + apply list_elem_of_singleton in Hk as ->.
      exists [5; 7]. vm_compute. reflexivity.
  - exists r. split; [exact Hr|].
    apply (Hlook "cfg/resume_training_config_diffs_5_7" [5; 7]).
    + rewrite resumed_folder_found. right. left.
    + vm_compute. reflexivity.
Defined.

(** ** A checkpoint file without a version *)

Lemma version_of_error (x : string) (e : exn) :
  version_of x = Raise e -> e = ValueError.
Proof.
  unfold version_of, nth_last, nth_first.
  pose proof (split_not_nil "_" x) as H1.
  destruct (last (split "_" x)) as [t|] eqn:Et.
  - simpl. pose proof (split_not_nil "." t) as H2.
    destruct (split "." t) as [|h rest]; [done|]. simpl.
    apply int_or_raise_error.
  - apply last_None in Et. done.
Qed.

(** X17.  A file that matches the pattern, does not end in [best.pth] and
    has no integer between its last underscore and the following dot is not
    skipped: it makes [latest_version] raise ValueError, whatever other
    checkpoints the folder holds. *)
Theorem latest_version_bad_name (s : fs) (folder string_to_glob x : string)
    (e : exn) :
  x ∈ glob s (path_join folder string_to_glob) ->
  endswith x "best.pth" = false ->
  version_of x = Raise e ->
  latest_version s folder string_to_glob = Raise ValueError.
Proof.
  intros Hin Hbest Hx. unfold latest_version.
  destruct (glob s (path_join folder string_to_glob)) as [|x0 items] eqn:E.
  - by apply elem_of_nil in Hin.
  - rewrite (map_result_raises version_of _ ValueError); [done | |].
    + apply version_of_error.
    + exists x, e. split; [|done]. by apply list_elem_of_filter.
Qed.

Lemma latest_version_bad_name_witness :
  "models/trunk_final.pth"
    ∈ glob (<["models/trunk_final.pth" := File []]> three_trunks)
        (path_join "models" "trunk_*.pth")
  /\ endswith "models/trunk_final.pth" "best.pth" = false
  /\ version_of "models/trunk_final.pth" = Raise ValueError
  /\ latest_version (<["models/trunk_final.pth" := File []]> three_trunks)
       "models" "trunk_*.pth" = Raise ValueError.
Proof.
  assert ("models/trunk_final.pth"
            ∈ glob (<["models/trunk_final.pth" := File []]> three_trunks)
                (path_join "models" "trunk_*.pth")) as Hin.
  { apply glob_elem. split; [by eexists | reflexivity]. }
  split; [exact Hin|]. split; [reflexivity|]. split; [reflexivity|].
  exact (latest_version_bad_name _ "models" "trunk_*.pth"
           "models/trunk_final.pth" ValueError Hin eq_refl eq_refl).
Defined.

(** ** Moving the state of an optimizer *)

Lemma move_state_loop_lookup {V} (is_tensor : V -> bool)
    (to : V -> string -> result V) (device : string)
    (items : list (string * V)) (state : dict V) :
  NoDup (dict_keys items) ->
  (forall k v, (k, v) ∈ items -> is_Some (dict_get k state)) ->
  (forall k v, (k, v) ∈ items -> is_tensor v = true ->
               exists moved, to v device = Ok moved) ->
  exists state',
    move_state_loop is_tensor to items state device = (state', Ok tt)
    /\ dict_keys state' = dict_keys state
    /\ forall k,
         match dict_get k items with
         | Some v =>
             if is_tensor v
             then exists moved, to v device = Ok moved
                                /\ dict_get k state' = Some moved
             else dict_get k state' = dict_get k state
         | None => dict_get k state' = dict_get k state
         end.
Proof.
  revert state. induction items as [|[k0 v0] items IH];
    intros state Hnd Hkeys Hto.
  - exists state. by repeat split.
  - apply NoDup_cons in Hnd as [Hk0 Hnd]. simpl in Hk0.
    apply dict_get_None in Hk0.
    simpl. destruct (is_tensor v0) eqn:Ht.
    + destruct (Hto k0 v0) as [moved Hm]; [by left | done |]. rewrite Hm.
      destruct (IH (dict_set k0 moved state)) as (state' & Hrun & Hks & Hlook);
        [done | | |].
      * intros k v Hin. destruct (String.eqb_spec k k0) as [->|Hne].
        -- rewrite dict_get_set_eq. by eexists.
        -- rewrite dict_get_set_ne by done. apply (Hkeys k v). by right.
      * intros k v Hin Hv. apply (Hto k v); [by right | done].
      * exists state'. split; [done|]. split.
        -- rewrite Hks. apply dict_keys_set_mem. apply (Hkeys k0 v0). by left.
        -- intros k. specialize (Hlook k).
           destruct (String.eqb_spec k k0) as [->|Hne].
           ++ rewrite Hk0 in Hlook. rewrite Ht. exists moved. split; [done|].
              by rewrite Hlook, dict_get_set_eq.
           ++ destruct (dict_get k items) as [v|].
              ** destruct (is_tensor v); [done|].
                 by rewrite Hlook, dict_get_set_ne.
              ** by rewrite Hlook, dict_get_set_ne.
    + destruct (IH state) as (state' & Hrun & Hks & Hlook); [done | | |].
      * intros k v Hin. apply (Hkeys k v). by right.
      * intros k v Hin Hv. apply (Hto k v); [by right | done].
      * exists state'. split; [done|]. split; [done|].
        intros k. specialize (Hlook k).
        destruct (String.eqb_spec k k0) as [->|Hne]; [|done].
        rewrite Hk0 in Hlook. by rewrite Ht.
Qed.

Lemma same_keys_Forall2 {V} (R : V -> V -> Prop) (d d' : dict V) :
  NoDup (dict_keys d) ->
  dict_keys d' = dict_keys d ->
  (forall k v, dict_get k d = Some v ->
     exists v', dict_get k d' = Some v' /\ R v v') ->
  Forall2 (fun kv kv' => kv'.1 = kv.1 /\ R kv.2 kv'.2) d d'.
Proof.
  revert d'. induction d as [|[k v] d IH]; intros [|[k' v'] d'] Hnd Hk Hlook;
    try done; try (by constructor).
  simpl in Hk. injection Hk as -> Hk.
  apply NoDup_cons in Hnd as [Hkd Hnd].
  constructor.
  - simpl. split; [done|].
    destruct (Hlook k v) as (w & Hw & HR); [simpl; by rewrite String.eqb_refl|].
    simpl in Hw. rewrite String.eqb_refl in Hw. by injection Hw as ->.
  - apply IH; [done | done |].
    intros k0 v0 Hget.
    assert (k0 <> k) as Hne.
    { intros ->. apply dict_get_Some_elem in Hget. apply Hkd.
      apply list_elem_of_fmap. by exists (k, v0). }
    destruct (Hlook k0 v0) as (w & Hw & HR).
    + simpl. by apply String.eqb_neq in Hne as ->.
    + simpl in Hw. apply String.eqb_neq in Hne. rewrite Hne in Hw. by exists w.
Qed.

(** X18.  When the keys of every state are distinct and every tensor can
    be moved, [move_optimizer_to_gpu] returns; every state keeps its keys in
    their order, every tensor is replaced by what [to] returned for it and
    every other value is left as it is; the number of states is unchanged. *)
Theorem move_optimizer_to_gpu_moves {V} (is_tensor : V -> bool)
    (to : V -> string -> result V) (states : list (dict V)) (device : string) :
  (forall state, state ∈ states -> NoDup (dict_keys state)) ->
  (forall state k v, state ∈ states -> (k, v) ∈ state -> is_tensor v = true ->
     exists moved, to v device = Ok moved) ->
  exists states',
    move_optimizer_to_gpu is_tensor to states device = (states', Ok tt)
    /\ Forall2
         (Forall2 (fun kv kv' =>
                     kv'.1 = kv.1
                     /\ if is_tensor kv.2 then to kv.2 device = Ok kv'.2
                        else kv'.2 = kv.2))
         states states'.
Proof.
  induction states as [|state states IH]; intros Hnd Hto.
  - exists []. split; [done | constructor].
  - destruct IH as (rest & Hrest & Hall).
    { intros st Hin. apply Hnd. by right. }
    { intros st k v Hin Hkv Hv. apply (Hto st k v); [by right | done | done]. }
    assert (NoDup (dict_keys state)) as Hnds by (apply Hnd; by left).
    destruct (move_state_loop_lookup is_tensor to device state state Hnds)
      as (state' & Hrun & Hkeys & Hlook).
    { intros k v Hin. rewrite (dict_get_elem k v state Hnds Hin). by eexists. }
    { intros k v Hin Hv. apply (Hto state k v); [by left | done | done]. }
    exists (state' :: rest). simpl. rewrite Hrun, Hrest. split; [done|].
    constructor; [|done].
    apply (same_keys_Forall2
             (fun v v' => if is_tensor v then to v device = Ok v' else v' = v));
      [done | done |].
    intros k v Hget. specialize (Hlook k). rewrite Hget in Hlook.
    destruct (is_tensor v).
    + destruct Hlook as (moved & Hm & Hs). by exists moved.
    + exists v. by rewrite Hlook.
Qed.

Lemma move_optimizer_to_gpu_moves_witness :
  (forall state, state ∈ example_states -> NoDup (dict_keys state))
  /\ (forall state k v, state ∈ example_states -> (k, v) ∈ state ->
        example_is_tensor v = true ->
        exists moved, example_to v "cuda" = Ok moved)
  /\ move_optimizer_to_gpu example_is_tensor example_to example_states "cuda"
     = ([[("step", None); ("exp_avg", Some "cuda")]], Ok tt)
  /\ exists states',
       move_optimizer_to_gpu example_is_tensor example_to example_states "cuda"
       = (states', Ok tt)
       /\ Forall2
            (Forall2 (fun kv kv' =>
                        kv'.1 = kv.1
                        /\ if example_is_tensor kv.2
                           then example_to kv.2 "cuda" = Ok kv'.2
                           else kv'.2 = kv.2))
            example_states states'.
Proof.
  assert (forall state, state ∈ example_states -> NoDup (dict_keys state))
    as Hnd.
  { intros state Hin. apply list_elem_of_singleton in Hin as ->.
    apply (bool_decide_unpack _). vm_compute. exact I. }
  assert (forall state k v, state ∈ example_states -> (k, v) ∈ state ->
            example_is_tensor v = true ->
            exists moved, example_to v "cuda" = Ok moved) as Hto.
  { intros state k v _ _ _. by eexists. }
  split; [exact Hnd|]. split; [exact Hto|]. split; [reflexivity|].
  exact (move_optimizer_to_gpu_moves example_is_tensor example_to
           example_states "cuda" Hnd Hto).
Defined.
